(** * PhoneBook: a shallow embedding of [main.py] and its properties

    The program reads a text file of phone book lines, builds
    [PhoneBookEntry] objects, sorts them by a field and reports validation
    messages.  The development follows the layout of [main.py]:

    - [Py]: the Python builtins the program calls ([str] and its methods,
      exceptions, [print], [sorted]);
    - [PhoneBookEntry]: the class, its constructor, properties and setters;
    - [read_phone_book], [sort_phone_book], [validate_phone_book_entry];
    - the properties of each of them. *)

From Stdlib Require Import Ascii String.
From Stdlib Require Import List NArith ZArith Bool Arith Lia.
From Stdlib Require Import Permutation Sorted.
From Stdlib Require DecimalString.
Import ListNotations.

Set Implicit Arguments.

(* ===================================================================== *)
(** * Python builtins *)
(* ===================================================================== *)

Module Py.

(** A Python [str] is a sequence of Unicode code points. *)
Definition char := N.
Definition str := list char.

(** A literal of the source (all literals of [main.py] are ASCII). *)
Definition lit (s : string) : str := map N_of_ascii (list_ascii_of_string s).
Arguments lit s%_string.

(** Truth value of a [str]: the empty string is false. *)
Definition truthy (s : str) : bool :=
  match s with [] => false | _ :: _ => true end.

(** [len] of a string or of a list. *)
Definition len {A} (l : list A) : nat := length l.

(** [==] on [str]. *)
Fixpoint str_eqb (s t : str) : bool :=
  match s, t with
  | [], [] => true
  | c :: s', d :: t' => (c =? d)%N && str_eqb s' t'
  | _, _ => false
  end.

(** [<] on [str]: lexicographic on code points, a proper prefix is smaller. *)
Fixpoint str_lt (s t : str) : bool :=
  match s, t with
  | _, [] => false
  | [], _ :: _ => true
  | c :: s', d :: t' =>
      if (c <? d)%N then true
      else if (d <? c)%N then false
      else str_lt s' t'
  end.

(** [x in (a, b, ...)] and [x in {a, b, ...}] for strings. *)
Definition str_in (x : str) (xs : list str) : bool := existsb (str_eqb x) xs.

(** Membership of a code point in a table of inclusive ranges. *)
Definition in_ranges (tbl : list (N * N)) (c : char) : bool :=
  existsb (fun r => (fst r <=? c)%N && (c <=? snd r)%N) tbl.

(** The code points [c] for which [chr(c).isdigit()] holds (Unicode 14.0,
    the database of CPython 3.11): the characters of Numeric_Type Decimal
    or Digit.  Besides the decimal digits of every script this contains,
    for instance, the superscript digits U+00B2, U+00B3 and U+00B9. *)
Definition digit_ranges : list (N * N) :=
  [ (48, 57); (178, 179); (185, 185); (1632, 1641); (1776, 1785);
    (1984, 1993); (2406, 2415); (2534, 2543); (2662, 2671); (2790, 2799);
    (2918, 2927); (3046, 3055); (3174, 3183); (3302, 3311); (3430, 3439);
    (3558, 3567); (3664, 3673); (3792, 3801); (3872, 3881); (4160, 4169);
    (4240, 4249); (4969, 4977); (6112, 6121); (6160, 6169); (6470, 6479);
    (6608, 6618); (6784, 6793); (6800, 6809); (6992, 7001); (7088, 7097);
    (7232, 7241); (7248, 7257); (8304, 8304); (8308, 8313); (8320, 8329);
    (9312, 9320); (9332, 9340); (9352, 9360); (9450, 9450); (9461, 9469);
    (9471, 9471); (10102, 10110); (10112, 10120); (10122, 10130);
    (42528, 42537); (43216, 43225); (43264, 43273); (43472, 43481);
    (43504, 43513); (43600, 43609); (44016, 44025); (65296, 65305);
    (66720, 66729); (68160, 68163); (68912, 68921); (69216, 69224);
    (69714, 69722); (69734, 69743); (69872, 69881); (69942, 69951);
    (70096, 70105); (70384, 70393); (70736, 70745); (70864, 70873);
    (71248, 71257); (71360, 71369); (71472, 71481); (71904, 71913);
    (72016, 72025); (72784, 72793); (73040, 73049); (73120, 73129);
    (92768, 92777); (92864, 92873); (93008, 93017); (120782, 120831);
    (123200, 123209); (123632, 123641); (125264, 125273); (127232, 127242);
    (130032, 130041) ]%N.

(** The code points of the decimal digits (general category Nd), the
    characters accepted by [str.isdecimal]. *)
Definition decimal_ranges : list (N * N) :=
  [ (48, 57); (1632, 1641); (1776, 1785); (1984, 1993); (2406, 2415);
    (2534, 2543); (2662, 2671); (2790, 2799); (2918, 2927); (3046, 3055);
    (3174, 3183); (3302, 3311); (3430, 3439); (3558, 3567); (3664, 3673);
    (3792, 3801); (3872, 3881); (4160, 4169); (4240, 4249); (6112, 6121);
    (6160, 6169); (6470, 6479); (6608, 6617); (6784, 6793); (6800, 6809);
    (6992, 7001); (7088, 7097); (7232, 7241); (7248, 7257); (42528, 42537);
    (43216, 43225); (43264, 43273); (43472, 43481); (43504, 43513);
    (43600, 43609); (44016, 44025); (65296, 65305); (66720, 66729);
    (68912, 68921); (69734, 69743); (69872, 69881); (69942, 69951);
    (70096, 70105); (70384, 70393); (70736, 70745); (70864, 70873);
    (71248, 71257); (71360, 71369); (71472, 71481); (71904, 71913);
    (72016, 72025); (72784, 72793); (73040, 73049); (73120, 73129);
    (92768, 92777); (92864, 92873); (93008, 93017); (120782, 120831);
    (123200, 123209); (123632, 123641); (125264, 125273);
    (130032, 130041) ]%N.

(** The code points [c] for which [chr(c).isspace()] holds; [str.split]
    without arguments and [str.strip] use the same class. *)
Definition space_ranges : list (N * N) :=
  [ (9, 13); (28, 32); (133, 133); (160, 160); (5760, 5760); (8192, 8202);
    (8232, 8233); (8239, 8239); (8287, 8287); (12288, 12288) ]%N.

Definition isdigit_char : char -> bool := in_ranges digit_ranges.
Definition isdecimal_char : char -> bool := in_ranges decimal_ranges.
Definition isspace_char : char -> bool := in_ranges space_ranges.

(** [s.isdigit()]: every character is a digit and there is at least one. *)
Definition isdigit (s : str) : bool := truthy s && forallb isdigit_char s.

(** [s.lstrip()], [s.rstrip()] and [s.strip()] without arguments. *)
Fixpoint lstrip (s : str) : str :=
  match s with
  | [] => []
  | c :: s' => if isspace_char c then lstrip s' else s
  end.

Definition rstrip (s : str) : str := rev (lstrip (rev s)).

Definition strip (s : str) : str := lstrip (rstrip s).

(** [s.split()] without arguments: one scan from the left; [tok] is the
    token being read (empty between tokens), closed by the next whitespace
    character or by the end of the string. *)
Definition flush (tok : str) : list str :=
  match tok with [] => [] | _ :: _ => [tok] end.

Fixpoint split_scan (tok : str) (s : str) : list str :=
  match s with
  | [] => flush tok
  | c :: s' =>
      if isspace_char c then flush tok ++ split_scan [] s'
      else split_scan (tok ++ [c]) s'
  end.

Definition split (s : str) : list str := split_scan [] s.

(** ** Exceptions and standard output *)

(** The exceptions the program meets.  By class [UnicodeDecodeError] is a
    [ValueError] and [FileNotFoundError] an [IOError] (that is, [OSError]);
    an [except] clause is modelled by the constructors it catches. *)
Inductive exn : Type :=
| ValueError (msg : str)
| UnicodeDecodeError (msg : str)
| TypeError
| FileNotFoundError
| IOError (msg : str)
| SystemExit (code : Z).

Inductive result (A : Type) : Type :=
| Returns (a : A)
| Raises (e : exn).
Arguments Returns {A} a.
Arguments Raises {A} e.

(** The lines written by [print] so far. *)
Definition stdout := list str.

(** A computation that may print and may raise. *)
Definition M (A : Type) : Type := stdout -> result A * stdout.

Definition ret {A} (a : A) : M A := fun out => (Returns a, out).

Definition bind {A B} (m : M A) (k : A -> M B) : M B :=
  fun out =>
    match m out with
    | (Returns a, out') => k a out'
    | (Raises e, out') => (Raises e, out')
    end.

Definition raise {A} (e : exn) : M A := fun out => (Raises e, out).

Definition print (s : str) : M unit := fun out => (Returns tt, out ++ [s]).

(** [sys.exit(code)] raises [SystemExit]. *)
Definition sys_exit {A} (code : Z) : M A := raise (SystemExit code).

(** [try: body except ...: handler]: [handler e] is [None] when no
    [except] clause matches [e]. *)
Definition try_except {A} (body : M A) (handler : exn -> option (M A)) : M A :=
  fun out =>
    match body out with
    | (Returns a, out') => (Returns a, out')
    | (Raises e, out') =>
        match handler e with
        | Some h => h out'
        | None => (Raises e, out')
        end
    end.

Declare Scope py_scope.
Delimit Scope py_scope with py.
Notation "x <- m ;; k" := (bind m (fun x => k))
  (at level 61, m at next level, right associativity) : py_scope.
Notation "m ;; k" := (bind m (fun _ => k))
  (at level 61, right associativity) : py_scope.

(** ** Values and [sorted] *)

(** The values an attribute lookup of this program can produce. *)
Inductive pyval : Type :=
| PyNone
| PyStr (s : str).

Definition is_str (v : pyval) : bool :=
  match v with PyStr _ => true | PyNone => false end.

(** [a < b] where it is defined: between two strings.  Comparing [None]
    with anything raises [TypeError]; [sorted] below tests for that case
    before it compares. *)
Definition pyval_lt (a b : pyval) : bool :=
  match a, b with
  | PyStr s, PyStr t => str_lt s t
  | _, _ => false
  end.

Section Sorting.
Variables (A K : Type).
Variable lt : K -> K -> bool.
Variable key : A -> K.

(** Insertion of [x] into a sorted prefix, as [list.sort] does for a run:
    [x] goes before the first element that is greater than [x], hence
    after every element that is equal to it. *)
Fixpoint insort (x : A) (l : list A) : list A :=
  match l with
  | [] => [x]
  | y :: l' => if lt (key x) (key y) then x :: y :: l' else y :: insort x l'
  end.

(** The stable sort of [l], elements taken from left to right.  Which
    stable sort runs does not show in the result: a list sorted on the key
    that keeps the order of equal elements is unique. *)
Definition stable_sort (l : list A) : list A :=
  fold_left (fun acc x => insort x acc) l [].

(** [list.sort(reverse=True)] reverses the list, sorts it with the same
    stable sort and reverses the result, so that equal elements keep
    their order. *)
Definition sort_with (reverse : bool) (l : list A) : list A :=
  if reverse then rev (stable_sort (rev l)) else stable_sort l.
End Sorting.

(** [sorted(l, key=key, reverse=reverse)].  Every element of a list of two
    or more takes part in a comparison, and a comparison with [None] raises
    [TypeError]. *)
Definition sorted {A} (l : list A) (key : A -> pyval) (reverse : bool)
  : M (list A) :=
  if (2 <=? length l)%nat && negb (forallb (fun x => is_str (key x)) l)
  then raise TypeError
  else ret (sort_with pyval_lt key reverse l).

End Py.

Import Py.
Local Open Scope py_scope.

(* ===================================================================== *)
(** * class PhoneBookEntry *)
(* ===================================================================== *)

Module PhoneBookEntry.

(** The instance attributes set by [__init__]. *)
Record t : Type := Build {
  _name : str;
  _surname : str;
  _separator : str;
  _phoneNumber : str
}.

(** An argument that is not passed takes its default, the empty string. *)
Definition arg (a : option str) : str :=
  match a with Some v => v | None => lit "" end.

(** [PhoneBookEntry(name, surname, separator, phone_number)]. *)
Definition init (name surname separator phone_number : option str) : t :=
  {| _name := arg name;
     _surname := arg surname;
     _separator := arg separator;
     _phoneNumber := arg phone_number |}.

(** The properties. *)
Definition name (self : t) : str := _name self.
Definition surname (self : t) : str := _surname self.
Definition separator (self : t) : str := _separator self.
Definition phone_number (self : t) : str := _phoneNumber self.

(** The setters: each returns the updated object or raises. *)
Definition set_name (self : t) (name : str) : result t :=
  if negb (truthy name) then Raises (ValueError (lit "Name cannot be empty"))
  else Returns {| _name := name;
                  _surname := _surname self;
                  _separator := _separator self;
                  _phoneNumber := _phoneNumber self |}.

Definition set_surname (self : t) (surname : str) : result t :=
  if negb (truthy surname)
  then Raises (ValueError (lit "Surname cannot be empty"))
  else Returns {| _name := _name self;
                  _surname := surname;
                  _separator := _separator self;
                  _phoneNumber := _phoneNumber self |}.

Definition set_separator (self : t) (separator : str) : result t :=
  if negb (str_in separator [lit "-"; lit ":"])
  then Raises (ValueError (lit "Separator must be '-' or ':'"))
  else Returns {| _name := _name self;
                  _surname := _surname self;
                  _separator := separator;
                  _phoneNumber := _phoneNumber self |}.

Definition set_phone_number (self : t) (phone_number : str) : result t :=
  if negb (isdigit phone_number)
  then Raises (ValueError (lit "Phone number must be numeric"))
  else if negb (len phone_number =? 9)%nat
  then Raises (ValueError (lit "Phone number must be 9 digits long"))
  else Returns {| _name := _name self;
                  _surname := _surname self;
                  _separator := _separator self;
                  _phoneNumber := phone_number |}.

(** [__repr__]. *)
Definition repr (self : t) : str :=
  name self ++ lit " " ++ surname self ++ lit " " ++ separator self
    ++ lit " " ++ phone_number self.

(** [getattr(self, attr, default)] on the data attributes of the class.
    The only caller passes one of the three property names. *)
Definition getattr (self : t) (attr : str) (default : pyval) : pyval :=
  if str_eqb attr (lit "name") then PyStr (name self)
  else if str_eqb attr (lit "surname") then PyStr (surname self)
  else if str_eqb attr (lit "separator") then PyStr (separator self)
  else if str_eqb attr (lit "phone_number") then PyStr (phone_number self)
  else if str_eqb attr (lit "_name") then PyStr (_name self)
  else if str_eqb attr (lit "_surname") then PyStr (_surname self)
  else if str_eqb attr (lit "_separator") then PyStr (_separator self)
  else if str_eqb attr (lit "_phoneNumber") then PyStr (_phoneNumber self)
  else default.

End PhoneBookEntry.

Definition entry : Type := PhoneBookEntry.t.

(* ===================================================================== *)
(** * validate_phone_book_entry *)
(* ===================================================================== *)

(** [validate_mess.append(msg)] under [if cond]. *)
Definition append_if (cond : bool) (msg : str) (mess : list str) : list str :=
  if cond then mess ++ [msg] else mess.

Definition validate_phone_book_entry (phone_book_entry : entry) : list str :=
  let validate_mess := [] in
  let validate_mess :=
    append_if (negb (truthy (PhoneBookEntry.name phone_book_entry)))
              (lit "Name cannot be empty") validate_mess in
  let validate_mess :=
    append_if (negb (isdigit (PhoneBookEntry.phone_number phone_book_entry)))
              (lit "phone number must be numeric") validate_mess in
  let validate_mess :=
    append_if (negb (len (PhoneBookEntry.phone_number phone_book_entry) =? 9)%nat)
              (lit "phone number must be 9 digits") validate_mess in
  let validate_mess :=
    append_if (negb (str_in (PhoneBookEntry.separator phone_book_entry)
                            [lit ":"; lit "-"]))
              (lit "the separator should be `:` or `-`") validate_mess in
  validate_mess.

(* ===================================================================== *)
(** * read_phone_book *)
(* ===================================================================== *)

(** What [open(file_path, "r")] and the iteration over the file do.
    [open] raises an exception: [FileNotFoundError] for a missing file,
    another [IOError] for a directory or a file without permission,
    [ValueError] for a path with a null character.  Or it returns a file
    whose iteration yields [lines] and then ends, or raises an exception:
    an [IOError] of the device, [UnicodeDecodeError] at bytes that are not
    text. *)
Inductive file : Type :=
| Unopened (e : exn)
| Text (lines : list str) (failure : option exn).

Definition Missing : file := Unopened FileNotFoundError.
Definition Unreadable (msg : str) : file := Unopened (IOError msg).

Definition file_system : Type := str -> file.

(** [for x in xs: body] over a state [s] that the body updates. *)
Fixpoint for_each {A S} (xs : list A) (body : S -> A -> M S) (s : S) : M S :=
  match xs with
  | [] => ret s
  | x :: xs' => s' <- body s x ;; for_each xs' body s'
  end.

(** The body of the loop.  Unpacking a list into a different number of
    names raises [ValueError]. *)
Definition read_line (phone_book_entries : list entry) (line : str)
  : M (list entry) :=
  let values := split (strip line) in
  if (len values =? 4)%nat then
    match values with
    | [name; surname; separator; phone_number] =>
        let phone_book_entry :=
          PhoneBookEntry.init (Some name) (Some surname) (Some separator)
                              (Some phone_number) in
        ret (phone_book_entries ++ [phone_book_entry])
    | _ => raise (ValueError (lit "values to unpack"))
    end
  else if (len values =? 3)%nat then
    match values with
    | [name; separator; phone_number] =>
        let phone_book_entry :=
          PhoneBookEntry.init (Some name) None (Some separator)
                              (Some phone_number) in
        ret (phone_book_entries ++ [phone_book_entry])
    | _ => raise (ValueError (lit "values to unpack"))
    end
  else ret phone_book_entries.

Definition read_phone_book (fs : file_system) (file_path : str)
  : M (list entry) :=
  let phone_book_entries := [] in
  try_except
    (match fs file_path with
     | Unopened e => raise e
     | Text lines failure =>
         phone_book_entries <- for_each lines read_line phone_book_entries ;;
         match failure with
         | Some e => raise e
         | None => ret phone_book_entries
         end
     end)
    (fun e =>
       match e with
       | FileNotFoundError =>
           Some (print (lit "File not found: " ++ file_path) ;; sys_exit 1%Z)
       | IOError msg =>
           Some (print (lit "An error occurred while reading the file: " ++ msg) ;;
                 sys_exit 1%Z)
       | _ => None
       end).

(* ===================================================================== *)
(** * sort_phone_book *)
(* ===================================================================== *)

Definition wrong_criteria : str :=
  lit "War: Wrong criteria, please choose one of this [Name, Surname, Phone_Number] ".

Definition sort_phone_book (phone_book_entries : list entry)
  (criteria ordering : str) : M (list entry) :=
  key <- (if str_in criteria [lit "name"; lit "surname"; lit "phone_number"]
          then ret (fun phone_book_entry =>
                      PhoneBookEntry.getattr phone_book_entry criteria PyNone)
          else print wrong_criteria ;; sys_exit 1%Z) ;;
  let reverse := str_eqb ordering (lit "descending") in
  sorted phone_book_entries key reverse.

(* ===================================================================== *)
(** * Specification vocabulary *)
(* ===================================================================== *)

(** Lexicographic order on strings by character ordinal: the empty string
    is below everything, a smaller first character decides, equal first
    characters defer to the rest. *)
Inductive lex_le : str -> str -> Prop :=
| lex_le_nil t : lex_le [] t
| lex_le_lt c d s t : (c < d)%N -> lex_le (c :: s) (d :: t)
| lex_le_eq c s t : lex_le s t -> lex_le (c :: s) (c :: t).

(** The three sort criteria and the field each one selects. *)
Inductive criterion : Type := ByName | BySurname | ByPhoneNumber.

Definition criterion_name (c : criterion) : str :=
  match c with
  | ByName => lit "name"
  | BySurname => lit "surname"
  | ByPhoneNumber => lit "phone_number"
  end.

Definition field (c : criterion) (e : entry) : str :=
  match c with
  | ByName => PhoneBookEntry.name e
  | BySurname => PhoneBookEntry.surname e
  | ByPhoneNumber => PhoneBookEntry.phone_number e
  end.

(** A line seen as runs of whitespace around tokens: [tokens s ts] when
    [s] is leading whitespace, then the tokens [ts], each non-empty and
    free of whitespace, each followed by whitespace or by the end. *)
Definition whitespace (s : str) : Prop := Forall (fun c => isspace_char c = true) s.
Definition no_whitespace (s : str) : Prop := Forall (fun c => isspace_char c = false) s.

Inductive tokens : str -> list str -> Prop :=
| tokens_none ws : whitespace ws -> tokens ws []
| tokens_last ws t : whitespace ws -> t <> [] -> no_whitespace t ->
    tokens (ws ++ t) [t]
| tokens_more ws t c rest ts :
    whitespace ws -> t <> [] -> no_whitespace t -> isspace_char c = true ->
    tokens (c :: rest) ts -> tokens (ws ++ t ++ c :: rest) (t :: ts).

(** What the parser makes of the tokens of one line. *)
Definition entries_of_tokens (ts : list str) : list entry :=
  match ts with
  | [name; surname; separator; phone_number] =>
      [PhoneBookEntry.Build name surname separator phone_number]
  | [name; separator; phone_number] =>
      [PhoneBookEntry.Build name (lit "") separator phone_number]
  | _ => []
  end.

(** [x] may stand before [y] in a list sorted by [key]: the key of [y] is
    not smaller than the key of [x]. *)
Definition not_after {A K} (lt : K -> K -> bool) (key : A -> K) (x y : A) : Prop :=
  lt (key y) (key x) = false.

(** A list of entries whose values on the field [c] never decrease, and
    one whose values never increase. *)
Definition ascending (c : criterion) (l : list entry) : Prop :=
  StronglySorted (fun a b => lex_le (field c a) (field c b)) l.

Definition descending (c : criterion) (l : list entry) : Prop :=
  StronglySorted (fun a b => lex_le (field c b) (field c a)) l.

(** The entries whose value on the field [c] is [v]. *)
Definition with_value (c : criterion) (v : str) (e : entry) : bool :=
  str_eqb (field c e) v.

(** [out] keeps the entries of equal value in the order they have in [l]. *)
Definition order_kept (c : criterion) (l out : list entry) : Prop :=
  forall v, filter (with_value c v) out = filter (with_value c v) l.

(** The objects of a list with their positions in it, and the relation
    "[x] stands before [y] in [l]". *)
Definition numbered {A} (l : list A) : list (nat * A) :=
  combine (seq 0 (length l)) l.

Definition precedes {A} (x y : A) (l : list A) : Prop :=
  exists pre mid post, l = pre ++ x :: mid ++ y :: post.

(** The criteria [sort_phone_book] accepts. *)
Definition allowed_criteria : list str :=
  [lit "name"; lit "surname"; lit "phone_number"].

(** A non-empty string of digit characters, in the sense of [str.isdigit]. *)
Definition digit_characters (s : str) : Prop :=
  s <> [] /\ Forall (fun c => isdigit_char c = true) s.

(** A string made of decimal digits only. *)
Definition decimal_digits (s : str) : Prop :=
  Forall (fun c => isdecimal_char c = true) s.

(** Sample data. *)
Definition john_smith (phone_number : str) : entry :=
  PhoneBookEntry.init (Some (lit "John")) (Some (lit "Smith")) (Some (lit "-"))
                      (Some phone_number).

(** Nine times U+00B2, SUPERSCRIPT TWO. *)
Definition superscript_twos : str := repeat 178%N 9.

Definition sample_book : list entry :=
  [ PhoneBookEntry.Build (lit "Bob") (lit "") (lit ":") (lit "12345");
    PhoneBookEntry.Build (lit "Ann") (lit "Lee") (lit "-") (lit "123456789");
    PhoneBookEntry.Build (lit "Bob") (lit "Ray") (lit "-") (lit "987654321") ].

Definition sample_lines : list str :=
  [ lit "Ann Lee - 123456789"; lit "  Bob :  12345 "; lit "too many tokens on this line";
    lit "" ].

Definition sample_files : file_system :=
  fun path => if str_eqb path (lit "book.txt") then Text sample_lines None
              else Missing.

(* ===================================================================== *)
(** * main *)
(* ===================================================================== *)

(** Three more builtins: [str(n)] for an [int] that is not negative,
    [sep.join(xs)] and [enumerate(xs)]; and the truth value of a list. *)
Definition str_of_int (n : nat) : str :=
  lit (DecimalString.NilZero.string_of_uint (Nat.to_uint n)).

Fixpoint join (sep : str) (xs : list str) : str :=
  match xs with
  | [] => []
  | [x] => x
  | x :: xs' => x ++ sep ++ join sep xs'
  end.

Definition enumerate {A} (xs : list A) : list (nat * A) :=
  combine (seq 0 (length xs)) xs.

Definition nonempty {A} (xs : list A) : bool :=
  match xs with [] => false | _ :: _ => true end.

(** The two headings; each starts with a line feed. *)
Definition file_structure : str := 10%N :: lit "File Structure:".
Definition validations : str := 10%N :: lit "Validations:".

(** [main], from the three answers it has read: [abs_path] is the answer to
    the first prompt after [strip] and [os.path.abspath], [criteria] and
    [ordering] are the two other answers after [strip] and [lower].  The
    prompts themselves, these conversions and the handler of
    [KeyboardInterrupt] belong to the terminal and the operating system
    and are not part of the embedding. *)
Definition main (fs : file_system) (abs_path criteria ordering : str) : M unit :=
  phone_book_entries <- read_phone_book fs abs_path ;;
  phone_book_entries <- sort_phone_book phone_book_entries criteria ordering ;;
  let validation_messages := [] in
  print file_structure ;;
  validation_messages <-
    for_each phone_book_entries
      (fun validation_messages phone_book_entry =>
         print (PhoneBookEntry.repr phone_book_entry) ;;
         let validation_message := validate_phone_book_entry phone_book_entry in
         if nonempty validation_message
         then ret (validation_messages ++ [validation_message])
         else ret validation_messages)
      validation_messages ;;
  if nonempty validation_messages then
    print validations ;;
    for_each (enumerate validation_messages)
      (fun _ numbered_message =>
         let i := fst numbered_message in
         let validation_message := snd numbered_message in
         print (lit "line" ++ str_of_int (i + 1) ++ lit ": "
                  ++ join (lit ", ") validation_message ++ lit "."))
      tt
  else ret tt.

(* ===================================================================== *)
(** * More specification vocabulary *)
(* ===================================================================== *)

(** An entry as the parser makes them: name, separator and phone number are
    tokens, the surname is a token or empty. *)
Definition tokenized (e : entry) : Prop :=
  PhoneBookEntry.name e <> [] /\
  PhoneBookEntry.separator e <> [] /\
  PhoneBookEntry.phone_number e <> [] /\
  no_whitespace (PhoneBookEntry.name e) /\
  no_whitespace (PhoneBookEntry.surname e) /\
  no_whitespace (PhoneBookEntry.separator e) /\
  no_whitespace (PhoneBookEntry.phone_number e).

(** The number of tokens of a line is 3 or 4. *)
Definition accepted (line : str) : bool :=
  (length (split line) =? 3) || (length (split line) =? 4).

(** A list sorted on the field [c] in the direction of [ordering]. *)
Definition ordered (c : criterion) (ordering : str) (l : list entry) : Prop :=
  if str_eqb ordering (lit "descending") then descending c l else ascending c l.

(** The validation results that are not empty, in the order of the
    entries. *)
Definition problems (es : list entry) : list (list str) :=
  filter nonempty (map validate_phone_book_entry es).

(** The line of the report for the [n]-th problem. *)
Definition report_line (n : nat) (messages : list str) : str :=
  lit "line" ++ str_of_int n ++ lit ": " ++ join (lit ", ") messages ++ lit ".".

(** The part of the output under the second heading: nothing when there is
    no problem, else the heading and one line for each problem, numbered
    from 1. *)
Definition validations_section (es : list entry) : list str :=
  match problems es with
  | [] => []
  | ps => validations ::
          map (fun np => report_line (fst np) (snd np))
              (combine (seq 1 (length ps)) ps)
  end.

(** More sample data: a copy of the sample file as [main] prints it. *)
Definition sample_copy : file_system :=
  fun path =>
    if str_eqb path (lit "book.txt") then Text sample_lines None
    else if str_eqb path (lit "copy.txt") then
      Text [lit "Ann Lee - 123456789"; lit "Bob  : 12345"] None
    else if str_eqb path (lit "both.txt") then
      Text (sample_lines ++ [lit "Ann Lee - 123456789"; lit "Bob  : 12345"]) None
    else Missing.

(* ===================================================================== *)
(** * Facts about strings *)
(* ===================================================================== *)

Lemma str_eqb_eq (s t : str) : str_eqb s t = true <-> s = t.
Proof.
  revert t; induction s as [|c s IH]; intros [|d t]; simpl;
    try (split; [discriminate | congruence]); try tauto.
  rewrite andb_true_iff, N.eqb_eq, IH. split.
  - intros [-> ->]; reflexivity.
  - intros H; injection H; auto.
Qed.

Lemma str_eqb_refl (s : str) : str_eqb s s = true.
Proof. apply str_eqb_eq; reflexivity. Qed.

Lemma str_eqb_neq (s t : str) : str_eqb s t = false <-> s <> t.
Proof.
  rewrite <- str_eqb_eq. destruct (str_eqb s t); split; congruence.
Qed.

Lemma str_lt_irrefl (s : str) : str_lt s s = false.
Proof.
  induction s as [|c s IH]; simpl; [reflexivity|].
  rewrite N.ltb_irrefl; exact IH.
Qed.

Lemma str_lt_trans (s t u : str) :
  str_lt s t = true -> str_lt t u = true -> str_lt s u = true.
Proof.
  revert t u; induction s as [|c s IH]; intros [|d t] [|e u]; simpl;
    try discriminate; try reflexivity.
  destruct (N.ltb_spec c d), (N.ltb_spec d c), (N.ltb_spec d e),
    (N.ltb_spec e d), (N.ltb_spec c e), (N.ltb_spec e c);
    try discriminate; try reflexivity; try lia.
  apply IH.
Qed.

Lemma str_lt_total (s t : str) :
  str_lt s t = false -> str_lt t s = false -> s = t.
Proof.
  revert t; induction s as [|c s IH]; intros [|d t]; simpl;
    try discriminate; try reflexivity.
  destruct (N.ltb_spec c d), (N.ltb_spec d c); try discriminate; try lia.
  intros Hs Ht. assert (c = d) by lia. subst. f_equal. apply IH; assumption.
Qed.

(** [not (t < s)] is the lexicographic [s <= t]. *)
Lemma str_lt_lex_le (s t : str) : str_lt t s = false <-> lex_le s t.
Proof.
  split.
  - revert t; induction s as [|c s IH]; intros t H; [constructor|].
    destruct t as [|d t]; simpl in H; [discriminate|].
    destruct (N.ltb_spec d c); [discriminate|].
    destruct (N.ltb_spec c d).
    + apply lex_le_lt; assumption.
    + assert (c = d) by lia. subst. apply lex_le_eq, IH, H.
  - induction 1 as [t | c d s t Hlt | c s t _ IH]; simpl.
    + destruct t; reflexivity.
    + destruct (N.ltb_spec d c); [lia|].
      destruct (N.ltb_spec c d); [reflexivity | lia].
    + rewrite N.ltb_irrefl. exact IH.
Qed.

Lemma lex_le_refl (s : str) : lex_le s s.
Proof. apply str_lt_lex_le, str_lt_irrefl. Qed.

Lemma pyval_lt_irrefl (a : pyval) : pyval_lt a a = false.
Proof. destruct a; simpl; [reflexivity | apply str_lt_irrefl]. Qed.

Lemma pyval_lt_trans (a b c : pyval) :
  pyval_lt a b = true -> pyval_lt b c = true -> pyval_lt a c = true.
Proof.
  destruct a, b, c; simpl; try discriminate. apply str_lt_trans.
Qed.

(* ===================================================================== *)
(** * Facts about the stable sort *)
(* ===================================================================== *)

Lemma filter_none {A} (f : A -> bool) (l : list A) :
  (forall z, In z l -> f z = false) -> filter f l = [].
Proof.
  induction l as [|y l IH]; intros H; simpl; [reflexivity|].
  rewrite (H y) by (left; reflexivity).
  apply IH. intros z Hz. apply H. right. exact Hz.
Qed.

Section SortingFacts.
Variables (A K : Type).
Variable lt : K -> K -> bool.
Variable key : A -> K.

Lemma insort_perm (x : A) (l : list A) :
  Permutation (x :: l) (insort lt key x l).
Proof.
  induction l as [|y l IH]; simpl; [reflexivity|].
  destruct (lt (key x) (key y)); [reflexivity|].
  rewrite perm_swap. apply perm_skip, IH.
Qed.

Lemma stable_sort_snoc (l : list A) (x : A) :
  stable_sort lt key (l ++ [x]) = insort lt key x (stable_sort lt key l).
Proof. unfold stable_sort. rewrite fold_left_app. reflexivity. Qed.

Lemma stable_sort_perm (l : list A) : Permutation l (stable_sort lt key l).
Proof.
  induction l as [|x l IH] using rev_ind; [reflexivity|].
  rewrite stable_sort_snoc, <- insort_perm, <- IH.
  symmetry. apply Permutation_cons_append.
Qed.

Lemma sort_with_perm (reverse : bool) (l : list A) :
  Permutation l (sort_with lt key reverse l).
Proof.
  destruct reverse; simpl; [|apply stable_sort_perm].
  rewrite <- Permutation_rev, <- stable_sort_perm. apply Permutation_rev.
Qed.

Hypothesis lt_irrefl : forall a, lt a a = false.
Hypothesis lt_trans :
  forall a b c, lt a b = true -> lt b c = true -> lt a c = true.

Lemma lt_not_after (x y : A) : lt (key x) (key y) = true -> not_after lt key x y.
Proof.
  intros Hxy. unfold not_after.
  destruct (lt (key y) (key x)) eqn:Hyx; [|reflexivity].
  rewrite <- (lt_irrefl (key x)). symmetry. eapply lt_trans; eassumption.
Qed.

Lemma not_after_lt (x y z : A) :
  lt (key x) (key y) = true -> not_after lt key y z -> not_after lt key x z.
Proof.
  unfold not_after. intros Hxy Hyz.
  destruct (lt (key z) (key x)) eqn:Hzx; [|reflexivity].
  rewrite <- Hyz. symmetry. eapply lt_trans; eassumption.
Qed.

Lemma insort_sorted (x : A) (l : list A) :
  StronglySorted (not_after lt key) l -> StronglySorted (not_after lt key) (insort lt key x l).
Proof.
  induction 1 as [|y l Hl IH Hy]; simpl.
  - constructor; constructor.
  - destruct (lt (key x) (key y)) eqn:Hxy.
    + constructor; [constructor; assumption|].
      constructor; [apply lt_not_after, Hxy|].
      eapply Forall_impl; [|exact Hy].
      intros z Hz. eapply not_after_lt; eassumption.
    + constructor; [exact IH|].
      rewrite <- insort_perm. constructor; assumption.
Qed.

Lemma stable_sort_sorted (l : list A) :
  StronglySorted (not_after lt key) (stable_sort lt key l).
Proof.
  induction l as [|x l IH] using rev_ind; [constructor|].
  rewrite stable_sort_snoc. apply insort_sorted, IH.
Qed.

(** Stability: the elements of one key keep their order.  [same] selects
    the elements whose key is [k]. *)
Variable same : A -> bool.
Variable k : K.
Hypothesis same_key : forall x, same x = true -> key x = k.

Lemma insort_filter (x : A) (l : list A) :
  StronglySorted (not_after lt key) l ->
  filter same (insort lt key x l) = filter same l ++ filter same [x].
Proof.
  induction 1 as [|y l Hl IH Hy]; [reflexivity|].
  cbn [insort]. destruct (lt (key x) (key y)) eqn:Hxy.
  - cbn [filter]. destruct (same x) eqn:Hx; [|rewrite app_nil_r; reflexivity].
    assert (Hnone : filter same (y :: l) = []).
    { apply filter_none. intros z Hz. destruct (same z) eqn:Hsz; [exfalso|reflexivity].
      apply same_key in Hx, Hsz. rewrite Hx in Hxy.
      destruct Hz as [<- | Hz].
      - rewrite Hsz, lt_irrefl in Hxy. discriminate.
      - rewrite Forall_forall in Hy. specialize (Hy z Hz).
        unfold not_after in Hy. rewrite Hsz, Hxy in Hy. discriminate. }
    cbn [filter] in Hnone. rewrite Hnone. reflexivity.
  - cbn [filter]. rewrite IH. destruct (same y); reflexivity.
Qed.

Lemma stable_sort_filter (l : list A) :
  filter same (stable_sort lt key l) = filter same l.
Proof.
  induction l as [|x l IH] using rev_ind; [reflexivity|].
  rewrite stable_sort_snoc, insort_filter by apply stable_sort_sorted.
  rewrite IH, filter_app. reflexivity.
Qed.

Lemma sort_with_filter (reverse : bool) (l : list A) :
  filter same (sort_with lt key reverse l) = filter same l.
Proof.
  destruct reverse; simpl; [|apply stable_sort_filter].
  rewrite filter_rev, stable_sort_filter, <- filter_rev, rev_involutive.
  reflexivity.
Qed.
End SortingFacts.

(** Sorting objects by a key of what they denote and then looking at what
    they denote is sorting what they denote. *)
Section SortingViews.
Variables (A B K : Type).
Variable lt : K -> K -> bool.
Variable key : A -> K.
Variable view : B -> A.

Lemma insort_map (x : B) (l : list B) :
  map view (insort lt (fun b => key (view b)) x l) =
  insort lt key (view x) (map view l).
Proof.
  induction l as [|y l IH]; simpl; [reflexivity|].
  destruct (lt (key (view x)) (key (view y))); simpl; [reflexivity|].
  rewrite IH. reflexivity.
Qed.

Lemma stable_sort_map (l : list B) :
  map view (stable_sort lt (fun b => key (view b)) l) =
  stable_sort lt key (map view l).
Proof.
  induction l as [|x l IH] using rev_ind; [reflexivity|].
  rewrite map_app. cbn [map]. rewrite !stable_sort_snoc, insort_map, IH.
  reflexivity.
Qed.

Lemma sort_with_map (reverse : bool) (l : list B) :
  map view (sort_with lt (fun b => key (view b)) reverse l) =
  sort_with lt key reverse (map view l).
Proof.
  destruct reverse; simpl; [|apply stable_sort_map].
  rewrite map_rev, stable_sort_map, map_rev. reflexivity.
Qed.
End SortingViews.

(** Positions in a numbered list. *)
Lemma numbered_objects {A} (l : list A) : map snd (numbered l) = l.
Proof.
  unfold numbered. generalize 0. induction l as [|x l IH]; intros n; simpl;
    [reflexivity | rewrite IH; reflexivity].
Qed.

Lemma precedes_filter {A} (p : A -> bool) (x y : A) (l : list A) :
  precedes x y (filter p l) -> precedes x y l.
Proof.
  induction l as [|h l IH]; simpl.
  - intros ([|? ?] & mid & post & H); discriminate.
  - destruct (p h).
    + intros ([|h' pre] & mid & post & H); simpl in H; injection H as -> H.
      * assert (Hy : In y (filter p l)).
        { rewrite H. apply in_or_app. right. left. reflexivity. }
        apply filter_In in Hy. destruct Hy as [Hy _].
        apply in_split in Hy. destruct Hy as (l1 & l2 & ->).
        exists [], l1, l2. reflexivity.
      * destruct IH as (pre' & mid' & post' & ->);
          [exists pre, mid, post; exact H|].
        exists (h' :: pre'), mid', post'. reflexivity.
    + intros H. destruct (IH H) as (pre & mid & post & ->).
      exists (h :: pre), mid, post. reflexivity.
Qed.

Lemma precedes_positions {A} (l : list A) (n : nat) (x y : nat * A) :
  precedes x y (combine (seq n (length l)) l) -> fst x < fst y.
Proof.
  revert n. induction l as [|h l IH]; intros n; simpl.
  - intros ([|? ?] & mid & post & H); discriminate.
  - intros ([|h' pre] & mid & post & H); simpl in H; injection H as <- H.
    + assert (Hy : In y (combine (seq (S n) (length l)) l)).
      { rewrite H. apply in_or_app. right. left. reflexivity. }
      destruct y as [i e]. apply in_combine_l, in_seq in Hy. simpl. lia.
    + apply (IH (S n)). exists pre, mid, post. exact H.
Qed.

Lemma StronglySorted_snoc {A} (R : A -> A -> Prop) (l : list A) (x : A) :
  StronglySorted R l -> Forall (fun y => R y x) l -> StronglySorted R (l ++ [x]).
Proof.
  induction 1 as [|y l Hl IH Hy]; intros Hx; simpl.
  - constructor; constructor.
  - inversion Hx; subst. constructor; [apply IH; assumption|].
    apply Forall_app. split; [assumption|]. constructor; [assumption|constructor].
Qed.

Lemma StronglySorted_weaken {A} (R R' : A -> A -> Prop) (l : list A) :
  (forall a b, R a b -> R' a b) -> StronglySorted R l -> StronglySorted R' l.
Proof.
  intros HR. induction 1 as [|y l Hl IH Hy]; constructor; [exact IH|].
  eapply Forall_impl; [|exact Hy]. intros z. apply HR.
Qed.

Lemma StronglySorted_rev {A} (R : A -> A -> Prop) (l : list A) :
  StronglySorted R l -> StronglySorted (fun a b => R b a) (rev l).
Proof.
  induction 1 as [|y l Hl IH Hy]; simpl; [constructor|].
  apply StronglySorted_snoc; [exact IH|].
  apply Forall_rev. exact Hy.
Qed.

(* ===================================================================== *)
(** * Facts about sort_phone_book *)
(* ===================================================================== *)

Lemma criterion_name_allowed (c : criterion) :
  str_in (criterion_name c) allowed_criteria = true.
Proof. destruct c; reflexivity. Qed.

Lemma allowed_criterion (criteria : str) :
  str_in criteria allowed_criteria = true <->
  exists c, criteria = criterion_name c.
Proof.
  split.
  - unfold str_in, allowed_criteria. cbn [existsb].
    rewrite !orb_true_iff, !str_eqb_eq.
    intros [H | [H | [H | H]]]; try discriminate;
      [exists ByName | exists BySurname | exists ByPhoneNumber]; exact H.
  - intros [c ->]. apply criterion_name_allowed.
Qed.

(** With an allowed criterion the call returns the stable sort on the
    chosen field, in the direction the ordering token selects, and prints
    nothing. *)
Lemma sorted_str_keys {A} (l : list A) (f : A -> str) (reverse : bool)
  (out0 : stdout) :
  sorted l (fun x => PyStr (f x)) reverse out0 =
  (Returns (sort_with pyval_lt (fun x => PyStr (f x)) reverse l), out0).
Proof.
  unfold sorted.
  replace (forallb (fun x => is_str (PyStr (f x))) l) with true
    by (symmetry; apply forallb_forall; reflexivity).
  rewrite andb_false_r. reflexivity.
Qed.

(** With an allowed criterion the call returns the stable sort on the
    chosen field, in the direction the ordering token selects, and prints
    nothing. *)
Lemma sort_phone_book_returns (l : list entry) (c : criterion)
  (ordering : str) (out0 : stdout) :
  sort_phone_book l (criterion_name c) ordering out0 =
  (Returns (sort_with pyval_lt (fun e => PyStr (field c e))
                      (str_eqb ordering (lit "descending")) l), out0).
Proof.
  destruct c.
  - exact (sorted_str_keys l (field ByName) _ out0).
  - exact (sorted_str_keys l (field BySurname) _ out0).
  - exact (sorted_str_keys l (field ByPhoneNumber) _ out0).
Qed.

Lemma not_after_field (c : criterion) (a b : entry) :
  not_after pyval_lt (fun e => PyStr (field c e)) a b <->
  lex_le (field c a) (field c b).
Proof. unfold not_after. simpl. apply str_lt_lex_le. Qed.

Lemma sort_field_ascending (c : criterion) (l : list entry) :
  ascending c (sort_with pyval_lt (fun e => PyStr (field c e)) false l).
Proof.
  unfold ascending. simpl.
  eapply StronglySorted_weaken.
  2: { apply stable_sort_sorted; [apply pyval_lt_irrefl | apply pyval_lt_trans]. }
  intros a b. apply not_after_field.
Qed.

Lemma sort_field_descending (c : criterion) (l : list entry) :
  descending c (sort_with pyval_lt (fun e => PyStr (field c e)) true l).
Proof.
  unfold descending. simpl.
  apply (StronglySorted_rev (R := fun a b => lex_le (field c a) (field c b))).
  apply sort_field_ascending.
Qed.

Lemma sort_field_order_kept (c : criterion) (reverse : bool) (l : list entry) :
  order_kept c l (sort_with pyval_lt (fun e => PyStr (field c e)) reverse l).
Proof.
  intros v.
  apply sort_with_filter with (k := PyStr v);
    [apply pyval_lt_irrefl | apply pyval_lt_trans |].
  intros e He. f_equal. apply str_eqb_eq. exact He.
Qed.

(** A sorted list is determined by the order of the entries of each value:
    every stable sort gives the result of [sort_with]. *)
Section StableSortUnique.
Variable le : str -> str -> Prop.
Hypothesis le_antisym : forall a b, le a b -> le b a -> a = b.
Variable c : criterion.

Lemma with_value_head (x : entry) (r : list entry) (v : str) :
  filter (with_value c v) (x :: r) =
  if str_eqb (field c x) v then x :: filter (with_value c v) r
  else filter (with_value c v) r.
Proof. reflexivity. Qed.

Lemma with_value_own (x : entry) (r : list entry) :
  filter (with_value c (field c x)) (x :: r) =
  x :: filter (with_value c (field c x)) r.
Proof. rewrite with_value_head, str_eqb_refl. reflexivity. Qed.

Lemma sorted_head_least (x y : entry) (r : list entry) :
  StronglySorted (fun a b => le (field c a) (field c b)) (x :: r) ->
  In y (x :: r) -> y = x \/ le (field c x) (field c y).
Proof.
  intros Hs [<- | Hy]; [left; reflexivity | right].
  apply StronglySorted_inv in Hs. destruct Hs as [_ Hx].
  rewrite Forall_forall in Hx. apply Hx, Hy.
Qed.

Lemma stable_sorted_unique (out1 out2 : list entry) :
  StronglySorted (fun a b => le (field c a) (field c b)) out1 ->
  StronglySorted (fun a b => le (field c a) (field c b)) out2 ->
  (forall v, filter (with_value c v) out1 = filter (with_value c v) out2) ->
  out1 = out2.
Proof.
  revert out2. induction out1 as [|x r1 IH]; intros [|y r2] H1 H2 Hf.
  - reflexivity.
  - specialize (Hf (field c y)). rewrite with_value_own in Hf. discriminate.
  - specialize (Hf (field c x)). rewrite with_value_own in Hf. discriminate.
  - assert (Hx : In x (y :: r2)).
    { eapply (proj1 (filter_In (with_value c (field c x)) x (y :: r2))).
      rewrite <- Hf, with_value_own. left. reflexivity. }
    assert (Hy : In y (x :: r1)).
    { eapply (proj1 (filter_In (with_value c (field c y)) y (x :: r1))).
      rewrite Hf, with_value_own. left. reflexivity. }
    assert (Hkey : field c x = field c y).
    { destruct (sorted_head_least H2 Hx) as [-> | Hyx]; [reflexivity|].
      destruct (sorted_head_least H1 Hy) as [-> | Hxy]; [reflexivity|].
      apply le_antisym; assumption. }
    assert (Hhead := Hf (field c x)).
    rewrite with_value_own, Hkey, with_value_own in Hhead.
    injection Hhead as -> Htail. f_equal.
    apply StronglySorted_inv in H1, H2.
    apply IH; [apply H1 | apply H2 |]. intros v. specialize (Hf v).
    rewrite !with_value_head in Hf.
    destruct (str_eqb (field c y) v); [injection Hf; auto | exact Hf].
Qed.
End StableSortUnique.

Lemma lex_le_antisym (a b : str) : lex_le a b -> lex_le b a -> a = b.
Proof.
  intros Hab Hba. apply str_lt_lex_le in Hab, Hba.
  apply str_lt_total; assumption.
Qed.

Lemma ascending_stable_unique (c : criterion) (l out : list entry) :
  ascending c out -> order_kept c l out ->
  out = sort_with pyval_lt (fun e => PyStr (field c e)) false l.
Proof.
  intros Ha Hk. apply (@stable_sorted_unique lex_le lex_le_antisym c _ _ Ha).
  - apply sort_field_ascending.
  - intros v. rewrite Hk. symmetry. apply sort_field_order_kept.
Qed.

Lemma descending_stable_unique (c : criterion) (l out : list entry) :
  descending c out -> order_kept c l out ->
  out = sort_with pyval_lt (fun e => PyStr (field c e)) true l.
Proof.
  intros Hd Hk.
  apply (@stable_sorted_unique (fun a b => lex_le b a)
           (fun a b H1 H2 => lex_le_antisym H2 H1) c _ _ Hd).
  - apply sort_field_descending.
  - intros v. rewrite Hk. symmetry. apply sort_field_order_kept.
Qed.

(** The same with the entries numbered by their positions in the input:
    of two entries of equal value, the one that stands first in the result
    stood first in the input. *)
Lemma sort_field_positions (c : criterion) (reverse : bool) (l : list entry) :
  exists outn : list (nat * entry),
    map snd outn = sort_with pyval_lt (fun e => PyStr (field c e)) reverse l /\
    Permutation (numbered l) outn /\
    forall x y, precedes x y outn -> field c (snd x) = field c (snd y) ->
                fst x < fst y.
Proof.
  exists (sort_with pyval_lt (fun q : nat * entry => PyStr (field c (snd q)))
                    reverse (numbered l)).
  split; [|split].
  - rewrite (sort_with_map pyval_lt (fun e => PyStr (field c e)) snd).
    rewrite numbered_objects. reflexivity.
  - apply sort_with_perm.
  - intros x y (pre & mid & post & Hout) Heq.
    set (p := fun q : nat * entry => str_eqb (field c (snd q)) (field c (snd x))).
    assert (Hkept :
      filter p (sort_with pyval_lt (fun q : nat * entry => PyStr (field c (snd q)))
                          reverse (numbered l)) = filter p (numbered l)).
    { apply sort_with_filter with (k := PyStr (field c (snd x)));
        [apply pyval_lt_irrefl | apply pyval_lt_trans |].
      intros q Hq. f_equal. apply str_eqb_eq. exact Hq. }
    apply (precedes_positions l 0). fold (numbered l).
    apply (precedes_filter p). rewrite <- Hkept, Hout.
    exists (filter p pre), (filter p mid), (filter p post).
    rewrite filter_app. cbn [filter]. rewrite filter_app. cbn [filter].
    assert (Hx : p x = true) by apply str_eqb_refl.
    assert (Hy : p y = true) by (unfold p; rewrite Heq; apply str_eqb_refl).
    rewrite Hx, Hy. reflexivity.
Qed.

(* ===================================================================== *)
(** * Facts about split and strip *)
(* ===================================================================== *)

Lemma split_scan_space (tok : str) (c : char) (s : str) :
  isspace_char c = true ->
  split_scan tok (c :: s) = flush tok ++ split_scan [] s.
Proof. intros H. simpl. rewrite H. reflexivity. Qed.

Lemma split_scan_leading (ws s : str) :
  whitespace ws -> split_scan [] (ws ++ s) = split_scan [] s.
Proof.
  induction 1 as [|c ws Hc _ IH]; simpl; [reflexivity|].
  rewrite Hc. exact IH.
Qed.

Lemma split_scan_token (t : str) :
  no_whitespace t ->
  forall tok s, split_scan tok (t ++ s) = split_scan (tok ++ t) s.
Proof.
  induction 1 as [|c t Hc _ IH]; intros tok s; simpl.
  - rewrite app_nil_r. reflexivity.
  - rewrite Hc, IH, <- app_assoc. reflexivity.
Qed.

Lemma split_scan_trailing (w : str) :
  whitespace w -> forall s tok, split_scan tok (s ++ w) = split_scan tok s.
Proof.
  intros Hw. induction s as [|c s IH]; intros tok; simpl.
  - revert tok. induction Hw as [|d w Hd _ IHw]; intros tok; simpl; [reflexivity|].
    rewrite Hd, (IHw []). apply app_nil_r.
  - destruct (isspace_char c); rewrite IH; reflexivity.
Qed.

Lemma flush_token (t : str) : t <> [] -> flush t = [t].
Proof. destruct t; [congruence | reflexivity]. Qed.

(** [split] computes the tokens of a line. *)
Lemma tokens_split (s : str) (ts : list str) : tokens s ts -> split s = ts.
Proof.
  unfold split.
  induction 1 as [ws Hws | ws t Hws Ht Hnt | ws t c rest ts Hws Ht Hnt Hc _ IH].
  - rewrite <- (app_nil_r ws), split_scan_leading by assumption. reflexivity.
  - rewrite split_scan_leading by assumption.
    rewrite <- (app_nil_r t) at 1. rewrite split_scan_token by assumption.
    simpl. apply flush_token, Ht.
  - rewrite split_scan_leading, split_scan_token by assumption.
    rewrite split_scan_space in * by assumption. simpl in *.
    rewrite flush_token by assumption. simpl. f_equal. exact IH.
Qed.

(** Every string starts with a run of whitespace, followed by nothing or
    by a character that is not whitespace. *)
Lemma leading_whitespace (s : str) :
  exists ws rest, s = ws ++ rest /\ whitespace ws /\
    (rest = [] \/ exists c r, rest = c :: r /\ isspace_char c = false).
Proof.
  induction s as [|c s (ws & rest & -> & Hws & Hrest)].
  - exists [], []. repeat split; [constructor | left; reflexivity].
  - destruct (isspace_char c) eqn:Hc.
    + exists (c :: ws), rest. repeat split; [constructor; assumption | exact Hrest].
    + exists [], (c :: ws ++ rest). repeat split; [constructor|].
      right. exists c, (ws ++ rest). split; [reflexivity | exact Hc].
Qed.

(** Every string starts with a run without whitespace, followed by nothing
    or by a whitespace character. *)
Lemma leading_token (s : str) :
  exists t rest, s = t ++ rest /\ no_whitespace t /\
    (rest = [] \/ exists c r, rest = c :: r /\ isspace_char c = true).
Proof.
  induction s as [|c s (t & rest & -> & Ht & Hrest)].
  - exists [], []. repeat split; [constructor | left; reflexivity].
  - destruct (isspace_char c) eqn:Hc.
    + exists [], (c :: t ++ rest). repeat split; [constructor|].
      right. exists c, (t ++ rest). split; [reflexivity | exact Hc].
    + exists (c :: t), rest. repeat split; [constructor; assumption | exact Hrest].
Qed.

(** Every string has tokens. *)
Lemma tokens_exist (s : str) : exists ts, tokens s ts.
Proof.
  remember (length s) as n eqn:Hn. revert s Hn.
  induction n as [n IH] using lt_wf_ind. intros s Hn.
  destruct (leading_whitespace s) as (ws & rest & -> & Hws & [-> | (c & r & -> & Hc)]).
  - exists []. rewrite app_nil_r. constructor. exact Hws.
  - destruct (leading_token r) as (t & rest & -> & Ht & [-> | (d & r' & -> & Hd)]).
    + exists [c :: t]. rewrite app_nil_r.
      apply tokens_last; [exact Hws | discriminate | constructor; assumption].
    + destruct (IH (length (d :: r'))) with (s := d :: r') as [ts Hts];
        [subst n; rewrite !length_app; simpl; rewrite length_app; simpl; lia
        | reflexivity |].
      exists ((c :: t) :: ts).
      change (ws ++ c :: t ++ d :: r') with (ws ++ (c :: t) ++ d :: r').
      apply tokens_more; try assumption; [discriminate | constructor; assumption].
Qed.

Lemma split_tokens (s : str) : tokens s (split s).
Proof.
  destruct (tokens_exist s) as [ts Hts].
  rewrite (tokens_split Hts). exact Hts.
Qed.

(** Tokens are non-empty and free of whitespace. *)
Lemma tokens_shape (s : str) (ts : list str) :
  tokens s ts -> Forall (fun t => t <> [] /\ no_whitespace t) ts.
Proof.
  induction 1; constructor; try (split; assumption); try assumption.
  constructor.
Qed.

Lemma lstrip_whitespace (s : str) :
  exists ws, s = ws ++ lstrip s /\ whitespace ws.
Proof.
  induction s as [|c s (ws & Hs & Hws)]; simpl.
  - exists []. split; [reflexivity | constructor].
  - destruct (isspace_char c) eqn:Hc.
    + exists (c :: ws). split; [simpl; f_equal; exact Hs | constructor; assumption].
    + exists []. split; [reflexivity | constructor].
Qed.

Lemma rstrip_whitespace (s : str) :
  exists ws, s = rstrip s ++ ws /\ whitespace ws.
Proof.
  unfold rstrip. destruct (lstrip_whitespace (rev s)) as (ws & Hs & Hws).
  exists (rev ws). split; [|apply Forall_rev; exact Hws].
  rewrite <- rev_app_distr, <- Hs, rev_involutive. reflexivity.
Qed.

(** Stripping a line first does not change its tokens. *)
Lemma split_strip (s : str) : split (strip s) = split s.
Proof.
  unfold strip, split.
  destruct (rstrip_whitespace s) as (w & Hs & Hw).
  destruct (lstrip_whitespace (rstrip s)) as (v & Hr & Hv).
  rewrite Hs at 2. rewrite split_scan_trailing by assumption.
  rewrite Hr at 2. rewrite split_scan_leading by assumption. reflexivity.
Qed.

(* ===================================================================== *)
(** * Facts about read_phone_book *)
(* ===================================================================== *)

Lemma read_line_entries (acc : list entry) (line : str) (out0 : stdout) :
  read_line acc line out0 =
  (Returns (acc ++ entries_of_tokens (split (strip line))), out0).
Proof.
  unfold read_line.
  destruct (split (strip line)) as [|a [|b [|c [|d [|e l]]]]]; simpl;
    rewrite ?app_nil_r; reflexivity.
Qed.

Lemma for_each_read_line (lines : list str) (acc : list entry) (out0 : stdout) :
  for_each lines read_line acc out0 =
  (Returns (acc ++ concat (map (fun l => entries_of_tokens (split (strip l))) lines)),
   out0).
Proof.
  revert acc. induction lines as [|line lines IH]; intros acc; simpl.
  - rewrite app_nil_r. reflexivity.
  - unfold bind. rewrite read_line_entries, IH, <- app_assoc. reflexivity.
Qed.

(** A file that is read to its end gives the entries of its lines. *)
Lemma read_phone_book_text (fs : file_system) (path : str) (lines : list str)
  (out0 : stdout) :
  fs path = Text lines None ->
  read_phone_book fs path out0 =
  (Returns (concat (map (fun l => entries_of_tokens (split l)) lines)), out0).
Proof.
  intros Hfs. unfold read_phone_book, try_except, bind. rewrite Hfs.
  rewrite for_each_read_line. simpl. do 3 f_equal.
  apply map_ext. intros l. rewrite split_strip. reflexivity.
Qed.

(** The call returns only in that case. *)
Lemma read_phone_book_inv (fs : file_system) (path : str) (out0 out1 : stdout)
  (es : list entry) :
  read_phone_book fs path out0 = (Returns es, out1) ->
  exists lines, fs path = Text lines None /\
    es = concat (map (fun l => entries_of_tokens (split l)) lines).
Proof.
  intros H. destruct (fs path) as [e|lines [e|]] eqn:Hfs.
  - unfold read_phone_book, try_except in H. rewrite Hfs in H.
    destruct e; discriminate.
  - unfold read_phone_book, try_except, bind in H. rewrite Hfs in H.
    rewrite for_each_read_line in H. destruct e; discriminate.
  - exists lines. split; [reflexivity|].
    rewrite (read_phone_book_text fs path out0 Hfs) in H. congruence.
Qed.

Lemma tokens_of_lines (lines : list str) : Forall2 tokens lines (map split lines).
Proof.
  induction lines; simpl; constructor; [apply split_tokens | assumption].
Qed.

Lemma tokens_of_lines_unique (lines : list str) (toks : list (list str)) :
  Forall2 tokens lines toks -> toks = map split lines.
Proof.
  induction 1 as [|l ts lines toks Hl _ IH]; simpl; [reflexivity|].
  rewrite (tokens_split Hl), IH. reflexivity.
Qed.

(** The entries made from tokens: three of the fields are tokens, the
    surname is a token or empty. *)
Lemma entries_of_tokens_shape (ts : list str) :
  Forall (fun t => t <> [] /\ no_whitespace t) ts ->
  Forall (fun e =>
            PhoneBookEntry.name e <> [] /\
            PhoneBookEntry.separator e <> [] /\
            PhoneBookEntry.phone_number e <> [] /\
            no_whitespace (PhoneBookEntry.name e) /\
            no_whitespace (PhoneBookEntry.surname e) /\
            no_whitespace (PhoneBookEntry.separator e) /\
            no_whitespace (PhoneBookEntry.phone_number e))
         (entries_of_tokens ts).
Proof.
  intros H.
  destruct ts as [|a [|b [|c [|d [|e l]]]]]; simpl; try constructor;
    try constructor;
    repeat match goal with
           | Hf : Forall _ (_ :: _) |- _ => inversion Hf; clear Hf; subst
           end;
    cbn; intuition (try constructor).
Qed.

(* ===================================================================== *)
(** * Facts about the validator and the digit classes *)
(* ===================================================================== *)

Lemma name_message (e : entry) :
  In (lit "Name cannot be empty") (validate_phone_book_entry e) ->
  PhoneBookEntry.name e = [].
Proof.
  unfold validate_phone_book_entry, append_if.
  destruct (PhoneBookEntry.name e) as [|c s]; [reflexivity|].
  cbn [truthy negb app].
  destruct (negb (isdigit _)), (negb (len _ =? 9)%nat), (negb (str_in _ _));
    cbn [app In]; intros H;
    repeat (destruct H as [H | H]; [vm_compute in H; discriminate|]);
    destruct H.
Qed.

Lemma isdigit_spec (s : str) : isdigit s = true <-> digit_characters s.
Proof.
  unfold isdigit, digit_characters.
  rewrite andb_true_iff, forallb_forall, Forall_forall.
  destruct s; simpl; intuition congruence.
Qed.

Lemma in_ranges_spec (tbl : list (N * N)) (c : char) :
  in_ranges tbl c = true <->
  exists lo hi, In (lo, hi) tbl /\ (lo <= c <= hi)%N.
Proof.
  unfold in_ranges. rewrite existsb_exists. split.
  - intros ([lo hi] & Hin & H). simpl in H.
    apply andb_true_iff in H. destruct H as [H1 H2].
    apply N.leb_le in H1, H2. exists lo, hi. auto.
  - intros (lo & hi & Hin & H1 & H2). exists (lo, hi). split; [exact Hin|].
    simpl. apply andb_true_iff. split; apply N.leb_le; assumption.
Qed.

(** Every decimal digit is a digit. *)
Lemma decimal_is_digit (c : char) :
  isdecimal_char c = true -> isdigit_char c = true.
Proof.
  unfold isdecimal_char, isdigit_char. rewrite !in_ranges_spec.
  intros (lo & hi & Hin & Hc).
  assert (Hcover :
    forallb (fun r => existsb (fun r' => (fst r' <=? fst r)%N && (snd r <=? snd r')%N)
                              digit_ranges) decimal_ranges = true)
    by (vm_compute; reflexivity).
  rewrite forallb_forall in Hcover. specialize (Hcover _ Hin).
  apply existsb_exists in Hcover. destruct Hcover as ([lo' hi'] & Hin' & H).
  simpl in H. apply andb_true_iff in H. destruct H as [H1 H2].
  apply N.leb_le in H1, H2. exists lo', hi'. split; [exact Hin' | lia].
Qed.

Lemma decimal_digits_are_digits (s : str) :
  s <> [] -> decimal_digits s -> digit_characters s.
Proof.
  intros Hs Hd. split; [exact Hs|].
  eapply Forall_impl; [|exact Hd]. apply decimal_is_digit.
Qed.

(* ===================================================================== *)
(** * The validator *)
(* ===================================================================== *)

(** C1 as stated fails: on the entry John Smith - 12345678a the validator
    does not return both the message about a numeric phone number and the
    message about 9 digits; the phone number has length 9, so the length
    test passes. *)
Lemma validate_john_smith_not_both_messages :
  ~ (In (lit "phone number must be numeric")
        (validate_phone_book_entry (john_smith (lit "12345678a"))) /\
     In (lit "phone number must be 9 digits")
        (validate_phone_book_entry (john_smith (lit "12345678a")))).
Proof.
  intros [_ H]. vm_compute in H. destruct H as [H | []]. discriminate.
Qed.

(** C1, amended: on the entry John Smith - 12345678a the validator returns
    exactly the one message "phone number must be numeric". *)
Theorem validate_john_smith_numeric_only :
  validate_phone_book_entry (john_smith (lit "12345678a")) =
  [lit "phone number must be numeric"].
Proof. vm_compute. reflexivity. Qed.

(** The other examples of the validator. *)
Example validate_empty_name :
  validate_phone_book_entry
    (PhoneBookEntry.init (Some (lit "")) (Some (lit "Smith")) (Some (lit "-"))
                         (Some (lit "123456789")))
  = [lit "Name cannot be empty"].
Proof. vm_compute. reflexivity. Qed.

Example validate_short_number :
  validate_phone_book_entry (john_smith (lit "12345")) =
  [lit "phone number must be 9 digits"].
Proof. vm_compute. reflexivity. Qed.

Example validate_valid_entry :
  validate_phone_book_entry (john_smith (lit "123456789")) = [].
Proof. vm_compute. reflexivity. Qed.

(* ===================================================================== *)
(** * The class *)
(* ===================================================================== *)

(** C7: the constructor is a total function and validates nothing: for any
    four argument strings the new entry holds exactly these strings in the
    corresponding fields. *)
Theorem init_stores_raw_values (name surname separator phone_number : str) :
  PhoneBookEntry.init (Some name) (Some surname) (Some separator)
                      (Some phone_number)
  = PhoneBookEntry.Build name surname separator phone_number /\
  PhoneBookEntry.name
    (PhoneBookEntry.init (Some name) (Some surname) (Some separator)
                         (Some phone_number)) = name /\
  PhoneBookEntry.surname
    (PhoneBookEntry.init (Some name) (Some surname) (Some separator)
                         (Some phone_number)) = surname /\
  PhoneBookEntry.separator
    (PhoneBookEntry.init (Some name) (Some surname) (Some separator)
                         (Some phone_number)) = separator /\
  PhoneBookEntry.phone_number
    (PhoneBookEntry.init (Some name) (Some surname) (Some separator)
                         (Some phone_number)) = phone_number.
Proof. repeat split. Qed.

(** The constructor accepts values that every setter refuses. *)
Example init_accepts_what_setters_refuse :
  let e := PhoneBookEntry.init (Some (lit "")) (Some (lit "")) (Some (lit "*"))
                               (Some (lit "abc")) in
  e = PhoneBookEntry.Build (lit "") (lit "") (lit "*") (lit "abc") /\
  PhoneBookEntry.set_name e (lit "") =
    Raises (ValueError (lit "Name cannot be empty")) /\
  PhoneBookEntry.set_surname e (lit "") =
    Raises (ValueError (lit "Surname cannot be empty")) /\
  PhoneBookEntry.set_separator e (lit "*") =
    Raises (ValueError (lit "Separator must be '-' or ':'")) /\
  PhoneBookEntry.set_phone_number e (lit "abc") =
    Raises (ValueError (lit "Phone number must be numeric")).
Proof. repeat split. Qed.

(** C8 as stated fails: nine superscript twos are not decimal digits, yet
    the setter accepts them, because [str.isdigit] holds of them. *)
Lemma set_phone_number_superscript_twos :
  ~ (~ (decimal_digits superscript_twos /\ len superscript_twos = 9) ->
     exists msg,
       PhoneBookEntry.set_phone_number (john_smith (lit "123456789"))
                                       superscript_twos
       = Raises (ValueError msg)).
Proof.
  intros H. destruct H as [msg Hmsg].
  - intros [Hd _]. inversion Hd as [|c s Hc _]. vm_compute in Hc. discriminate.
  - vm_compute in Hmsg. discriminate.
Qed.

(** C8, amended: the setter fails with [ValueError] unless the value is a
    non-empty string of digit characters in the sense of [str.isdigit]
    (the decimal digits and the other characters of Numeric_Type Digit,
    such as the superscript digits) and has length exactly 9.  The digit
    test comes first: a value that fails it gets the message of the digit
    test whatever its length.  When both tests pass the field becomes the
    value and the other fields are unchanged.  In particular every string
    of 9 decimal digits is accepted. *)
Theorem set_phone_number_spec (self : entry) (v : str) :
  (~ digit_characters v ->
   PhoneBookEntry.set_phone_number self v =
   Raises (ValueError (lit "Phone number must be numeric"))) /\
  (digit_characters v -> len v <> 9 ->
   PhoneBookEntry.set_phone_number self v =
   Raises (ValueError (lit "Phone number must be 9 digits long"))) /\
  (digit_characters v -> len v = 9 ->
   PhoneBookEntry.set_phone_number self v =
   Returns (PhoneBookEntry.Build (PhoneBookEntry.name self)
                                 (PhoneBookEntry.surname self)
                                 (PhoneBookEntry.separator self) v)) /\
  (decimal_digits v -> len v = 9 ->
   PhoneBookEntry.set_phone_number self v =
   Returns (PhoneBookEntry.Build (PhoneBookEntry.name self)
                                 (PhoneBookEntry.surname self)
                                 (PhoneBookEntry.separator self) v)).
Proof.
  assert (Hok : digit_characters v -> len v = 9 ->
    PhoneBookEntry.set_phone_number self v =
    Returns (PhoneBookEntry.Build (PhoneBookEntry.name self)
                                  (PhoneBookEntry.surname self)
                                  (PhoneBookEntry.separator self) v)).
  { intros Hd Hl. apply isdigit_spec in Hd.
    unfold PhoneBookEntry.set_phone_number. rewrite Hd, Hl. reflexivity. }
  repeat split.
  - intros Hd. unfold PhoneBookEntry.set_phone_number.
    destruct (isdigit v) eqn:E; [|reflexivity].
    exfalso. apply Hd, isdigit_spec, E.
  - intros Hd Hl. apply isdigit_spec in Hd.
    unfold PhoneBookEntry.set_phone_number. rewrite Hd. cbn [negb].
    apply Nat.eqb_neq in Hl. rewrite Hl. reflexivity.
  - exact Hok.
  - intros Hd Hl. apply Hok; [|exact Hl].
    apply decimal_digits_are_digits; [|exact Hd].
    intros ->. discriminate.
Qed.

Lemma set_phone_number_spec_witness :
  PhoneBookEntry.set_phone_number (john_smith (lit "12345")) (lit "12a") =
    Raises (ValueError (lit "Phone number must be numeric")) /\
  PhoneBookEntry.set_phone_number (john_smith (lit "12345")) (lit "1234") =
    Raises (ValueError (lit "Phone number must be 9 digits long")) /\
  PhoneBookEntry.set_phone_number (john_smith (lit "12345")) superscript_twos =
    Returns (PhoneBookEntry.Build (lit "John") (lit "Smith") (lit "-")
                                  superscript_twos) /\
  PhoneBookEntry.set_phone_number (john_smith (lit "12345")) (lit "987654321") =
    Returns (john_smith (lit "987654321")).
Proof.
  split; [|split; [|split]].
  - apply (proj1 (set_phone_number_spec (john_smith (lit "12345")) (lit "12a"))).
    intros [_ H]. rewrite Forall_forall in H.
    specialize (H 97%N). vm_compute in H.
    assert (E : false = true) by (apply H; right; right; left; reflexivity).
    discriminate E.
  - apply (proj1 (proj2 (set_phone_number_spec (john_smith (lit "12345"))
                                                (lit "1234")))).
    + split; [discriminate|]. repeat constructor.
    + vm_compute. discriminate.
  - apply (proj1 (proj2 (proj2 (set_phone_number_spec (john_smith (lit "12345"))
                                                       superscript_twos)))).
    + split; [discriminate|]. repeat constructor.
    + reflexivity.
  - apply (proj2 (proj2 (proj2 (set_phone_number_spec (john_smith (lit "12345"))
                                                       (lit "987654321"))))).
    + repeat constructor.
    + reflexivity.
Defined.

(* ===================================================================== *)
(** * The parser *)
(* ===================================================================== *)

(** C6: every line has tokens, its maximal runs of characters other than
    whitespace; a line of 4 tokens gives the entry whose name, surname,
    separator and phone number are the tokens in order, a line of 3 tokens
    the entry with name, separator and phone number from the tokens and
    the empty surname, any other line gives nothing; the result lists the
    entries in the order of the lines. *)
Theorem read_phone_book_entries (fs : file_system) (path : str)
  (lines : list str) (out0 : stdout) :
  fs path = Text lines None ->
  (exists toks, Forall2 tokens lines toks) /\
  (forall toks, Forall2 tokens lines toks ->
     read_phone_book fs path out0 =
     (Returns (concat (map entries_of_tokens toks)), out0)) /\
  (forall name surname separator phone_number,
     entries_of_tokens [name; surname; separator; phone_number] =
     [PhoneBookEntry.Build name surname separator phone_number]) /\
  (forall name separator phone_number,
     entries_of_tokens [name; separator; phone_number] =
     [PhoneBookEntry.Build name (lit "") separator phone_number]) /\
  (forall ts, length ts <> 4 -> length ts <> 3 -> entries_of_tokens ts = []).
Proof.
  intros Hfs. split; [|split; [|repeat split]].
  - exists (map split lines). apply tokens_of_lines.
  - intros toks Htoks. rewrite (tokens_of_lines_unique Htoks), map_map.
    apply read_phone_book_text, Hfs.
  - intros [|a [|b [|c [|d [|e l]]]]] H4 H3; simpl in *; congruence.
Qed.

Lemma read_phone_book_entries_witness :
  read_phone_book sample_files (lit "book.txt") [] =
  (Returns [ PhoneBookEntry.Build (lit "Ann") (lit "Lee") (lit "-") (lit "123456789");
             PhoneBookEntry.Build (lit "Bob") (lit "") (lit ":") (lit "12345") ],
   []).
Proof.
  exact (proj1 (proj2 (read_phone_book_entries sample_files (lit "book.txt")
                         (lines := sample_lines) [] eq_refl))
           (map split sample_lines) (tokens_of_lines sample_lines)).
Defined.

(** A missing file ends the run with exit status 1. *)
Example read_phone_book_missing :
  read_phone_book sample_files (lit "none.txt") [] =
  (Raises (SystemExit 1), [lit "File not found: none.txt"]).
Proof. vm_compute. reflexivity. Qed.

(** C10: every entry the parser returns has a non-empty name, separator
    and phone number, none of its fields contains whitespace, and the
    validator does not report "Name cannot be empty" for it. *)
Theorem parsed_entries_shape (fs : file_system) (path : str)
  (out0 out1 : stdout) (es : list entry) :
  read_phone_book fs path out0 = (Returns es, out1) ->
  Forall (fun e =>
            PhoneBookEntry.name e <> [] /\
            PhoneBookEntry.separator e <> [] /\
            PhoneBookEntry.phone_number e <> [] /\
            no_whitespace (PhoneBookEntry.name e) /\
            no_whitespace (PhoneBookEntry.surname e) /\
            no_whitespace (PhoneBookEntry.separator e) /\
            no_whitespace (PhoneBookEntry.phone_number e) /\
            ~ In (lit "Name cannot be empty") (validate_phone_book_entry e))
         es.
Proof.
  intros H. apply read_phone_book_inv in H. destruct H as (lines & _ & ->).
  apply Forall_concat, Forall_map, Forall_forall. intros line _.
  eapply Forall_impl; [|apply entries_of_tokens_shape, (tokens_shape (split_tokens line))].
  intros e (Hn & Hs & Hp & Hwn & Hws & Hwsep & Hwp).
  repeat split; try assumption.
  intros Hin. apply Hn, name_message, Hin.
Qed.

Lemma parsed_entries_shape_witness :
  Forall (fun e =>
            PhoneBookEntry.name e <> [] /\
            PhoneBookEntry.separator e <> [] /\
            PhoneBookEntry.phone_number e <> [] /\
            no_whitespace (PhoneBookEntry.name e) /\
            no_whitespace (PhoneBookEntry.surname e) /\
            no_whitespace (PhoneBookEntry.separator e) /\
            no_whitespace (PhoneBookEntry.phone_number e) /\
            ~ In (lit "Name cannot be empty") (validate_phone_book_entry e))
         [ PhoneBookEntry.Build (lit "Ann") (lit "Lee") (lit "-") (lit "123456789");
           PhoneBookEntry.Build (lit "Bob") (lit "") (lit ":") (lit "12345") ].
Proof.
  apply (parsed_entries_shape sample_files (lit "book.txt") [] (out1 := [])).
  vm_compute. reflexivity.
Defined.

(* ===================================================================== *)
(** * The sorter *)
(* ===================================================================== *)

(** C2: the sort is stable in both directions: for every list, every
    allowed criterion and every ordering, the entries of any one value on
    the chosen field stand in the result in the order they have in the
    input; with the entries numbered by their input positions, of two
    entries of equal value the one that comes first in the result has the
    smaller input position. *)
Theorem sort_phone_book_stable (l : list entry) (c : criterion)
  (ordering : str) (out0 : stdout) :
  exists out,
    sort_phone_book l (criterion_name c) ordering out0 = (Returns out, out0) /\
    order_kept c l out /\
    exists outn : list (nat * entry),
      map snd outn = out /\
      Permutation (numbered l) outn /\
      forall x y, precedes x y outn -> field c (snd x) = field c (snd y) ->
                  fst x < fst y.
Proof.
  eexists. split; [apply sort_phone_book_returns|].
  split; [apply sort_field_order_kept | apply sort_field_positions].
Qed.

Lemma sort_phone_book_stable_witness :
  exists out,
    sort_phone_book sample_book (lit "name") (lit "descending") [] =
    (Returns out, []) /\
    filter (with_value ByName (lit "Bob")) out =
    [ PhoneBookEntry.Build (lit "Bob") (lit "") (lit ":") (lit "12345");
      PhoneBookEntry.Build (lit "Bob") (lit "Ray") (lit "-") (lit "987654321") ].
Proof.
  destruct (sort_phone_book_stable sample_book ByName (lit "descending") [])
    as (out & Hout & Hkept & _).
  exists out. split; [exact Hout|]. rewrite (Hkept (lit "Bob")). reflexivity.
Defined.

(** C3: for every list, every allowed criterion and every ordering, the
    call returns a rearrangement of the input list; sorting ascending (any
    ordering other than "descending": "ascending", the empty default, any
    other text) gives the entries with their values on the chosen field
    never decreasing in the lexicographic order of character ordinals,
    and sorting descending gives them with these values never
    increasing. *)
Theorem sort_phone_book_ordered (l : list entry) (c : criterion)
  (ordering : str) (out0 : stdout) :
  exists out,
    sort_phone_book l (criterion_name c) ordering out0 = (Returns out, out0) /\
    Permutation l out /\
    (ordering <> lit "descending" -> ascending c out) /\
    (ordering = lit "descending" -> descending c out).
Proof.
  eexists. split; [apply sort_phone_book_returns|].
  split; [apply sort_with_perm|]. split.
  - intros Hne. apply str_eqb_neq in Hne. rewrite Hne.
    apply sort_field_ascending.
  - intros ->. apply sort_field_descending.
Qed.

Lemma sort_phone_book_ordered_witness :
  (exists out,
     sort_phone_book sample_book (lit "name") (lit "ascending") [] =
     (Returns out, []) /\ Permutation sample_book out /\ ascending ByName out) /\
  (exists out,
     sort_phone_book sample_book (lit "name") (lit "") [] =
     (Returns out, []) /\ Permutation sample_book out /\ ascending ByName out) /\
  (exists out,
     sort_phone_book sample_book (lit "name") (lit "descending") [] =
     (Returns out, []) /\ Permutation sample_book out /\ descending ByName out).
Proof.
  split; [|split].
  - destruct (sort_phone_book_ordered sample_book ByName (lit "ascending") [])
      as (out & Hout & Hperm & Ha & _).
    exists out. repeat split; [exact Hout | exact Hperm | apply Ha; discriminate].
  - destruct (sort_phone_book_ordered sample_book ByName (lit "") [])
      as (out & Hout & Hperm & Ha & _).
    exists out. repeat split; [exact Hout | exact Hperm | apply Ha; discriminate].
  - destruct (sort_phone_book_ordered sample_book ByName (lit "descending") [])
      as (out & Hout & Hperm & _ & Hd).
    exists out. repeat split; [exact Hout | exact Hperm | apply Hd; reflexivity].
Defined.

(** C4: with a criterion outside name, surname and phone_number the call
    prints its warning and raises [SystemExit] with status 1, which ends
    whatever computation follows the call, and no list is returned; with
    a criterion among the three it returns a list. *)
Theorem sort_phone_book_criteria (l : list entry) (criteria ordering : str)
  (out0 : stdout) :
  (~ In criteria allowed_criteria ->
   sort_phone_book l criteria ordering out0 =
     (Raises (SystemExit 1), out0 ++ [wrong_criteria]) /\
   forall (B : Type) (rest : list entry -> M B),
     bind (sort_phone_book l criteria ordering) rest out0 =
     (Raises (SystemExit 1), out0 ++ [wrong_criteria])) /\
  (In criteria allowed_criteria ->
   exists out, sort_phone_book l criteria ordering out0 = (Returns out, out0)).
Proof.
  split.
  - intros Hnot.
    assert (E : sort_phone_book l criteria ordering out0 =
                (Raises (SystemExit 1), out0 ++ [wrong_criteria])).
    { unfold sort_phone_book, bind.
      change [lit "name"; lit "surname"; lit "phone_number"] with allowed_criteria.
      destruct (str_in criteria allowed_criteria) eqn:Hin; [|reflexivity].
      exfalso. apply Hnot. apply allowed_criterion in Hin.
      destruct Hin as [[] ->]; simpl; auto. }
    split; [exact E|]. intros B rest. unfold bind at 1. rewrite E. reflexivity.
  - intros Hin.
    assert (Hc : exists c, criteria = criterion_name c).
    { simpl in Hin. destruct Hin as [<- | [<- | [<- | []]]];
        [exists ByName | exists BySurname | exists ByPhoneNumber]; reflexivity. }
    destruct Hc as [c ->]. eexists. apply sort_phone_book_returns.
Qed.

Lemma sort_phone_book_criteria_witness :
  sort_phone_book sample_book (lit "separator") (lit "ascending") [] =
    (Raises (SystemExit 1), [wrong_criteria]) /\
  exists out,
    sort_phone_book sample_book (lit "surname") (lit "ascending") [] =
    (Returns out, []).
Proof.
  split.
  - apply (proj1 (sort_phone_book_criteria sample_book (lit "separator")
                    (lit "ascending") [])).
    intros H. vm_compute in H.
    repeat (destruct H as [H | H]; [discriminate H|]). exact H.
  - apply (proj2 (sort_phone_book_criteria sample_book (lit "surname")
                    (lit "ascending") [])).
    right. left. reflexivity.
Defined.

(** C5: the call sorts descending exactly when the ordering is the text
    "descending": with that text the result is sorted descending, and with
    every other ordering string, the empty one included, it is sorted
    ascending; no ordering string makes the call fail, and an ordering other
    than "descending" gives, for any criterion, the outcome of the default
    ordering. *)
Theorem sort_phone_book_ordering (l : list entry) (ordering : str)
  (out0 : stdout) :
  (forall c, exists out,
     sort_phone_book l (criterion_name c) ordering out0 = (Returns out, out0) /\
     Permutation l out /\ order_kept c l out /\
     (ordering = lit "descending" -> descending c out) /\
     (ordering <> lit "descending" -> ascending c out)) /\
  (ordering <> lit "descending" ->
   forall criteria,
     sort_phone_book l criteria ordering out0 =
     sort_phone_book l criteria (lit "") out0).
Proof.
  split.
  - intros c. eexists. split; [apply sort_phone_book_returns|].
    split; [apply sort_with_perm|]. split; [apply sort_field_order_kept|].
    split.
    + intros ->. apply sort_field_descending.
    + intros Hne. apply str_eqb_neq in Hne. rewrite Hne.
      apply sort_field_ascending.
  - intros Hne criteria. apply str_eqb_neq in Hne.
    unfold sort_phone_book. rewrite Hne. reflexivity.
Qed.

Lemma sort_phone_book_ordering_witness :
  (exists out,
     sort_phone_book sample_book (lit "name") (lit "descending") [] =
     (Returns out, []) /\ descending ByName out) /\
  (exists out,
     sort_phone_book sample_book (lit "name") (lit "Descending") [] =
     (Returns out, []) /\ ascending ByName out) /\
  sort_phone_book sample_book (lit "name") (lit "Descending") [] =
  sort_phone_book sample_book (lit "name") (lit "") [].
Proof.
  split; [|split].
  - destruct (proj1 (sort_phone_book_ordering sample_book (lit "descending") [])
                ByName) as (out & Hout & _ & _ & Hd & _).
    exists out. split; [exact Hout | apply Hd; reflexivity].
  - destruct (proj1 (sort_phone_book_ordering sample_book (lit "Descending") [])
                ByName) as (out & Hout & _ & _ & _ & Ha).
    exists out. split; [exact Hout | apply Ha; discriminate].
  - apply (proj2 (sort_phone_book_ordering sample_book (lit "Descending") [])).
    discriminate.
Defined.

(** C9: for every list, every allowed criterion and every ordering, the
    result is a permutation of the input: the same entries with the same
    multiplicities, hence the same length. *)
Theorem sort_phone_book_permutation (l : list entry) (c : criterion)
  (ordering : str) (out0 : stdout) :
  exists out,
    sort_phone_book l (criterion_name c) ordering out0 = (Returns out, out0) /\
    Permutation l out /\ length out = length l.
Proof.
  eexists. split; [apply sort_phone_book_returns|].
  assert (P := sort_with_perm pyval_lt (fun e => PyStr (field c e))
                 (str_eqb ordering (lit "descending")) l).
  split; [exact P | symmetry; apply Permutation_length, P].
Qed.

(** The sample book sorted by name, both ways: the two entries named Bob
    keep their order. *)
Example sort_sample_ascending :
  sort_phone_book sample_book (lit "name") (lit "ascending") [] =
  (Returns
     [ PhoneBookEntry.Build (lit "Ann") (lit "Lee") (lit "-") (lit "123456789");
       PhoneBookEntry.Build (lit "Bob") (lit "") (lit ":") (lit "12345");
       PhoneBookEntry.Build (lit "Bob") (lit "Ray") (lit "-") (lit "987654321") ],
   []).
Proof. vm_compute. reflexivity. Qed.

Example sort_sample_descending :
  sort_phone_book sample_book (lit "name") (lit "descending") [] =
  (Returns
     [ PhoneBookEntry.Build (lit "Bob") (lit "") (lit ":") (lit "12345");
       PhoneBookEntry.Build (lit "Bob") (lit "Ray") (lit "-") (lit "987654321");
       PhoneBookEntry.Build (lit "Ann") (lit "Lee") (lit "-") (lit "123456789") ],
   []).
Proof. vm_compute. reflexivity. Qed.

(* ===================================================================== *)
(** * More about the class and the validator *)
(* ===================================================================== *)

Lemma truthy_spec (s : str) : truthy s = true <-> s <> [].
Proof. destruct s; simpl; split; congruence. Qed.

Lemma truthy_false (s : str) : truthy s = false <-> s = [].
Proof. destruct s; simpl; split; congruence. Qed.

Lemma str_in_pair (s a b : str) : str_in s [a; b] = true <-> s = a \/ s = b.
Proof.
  unfold str_in. cbn [existsb]. rewrite orb_false_r, orb_true_iff, !str_eqb_eq.
  reflexivity.
Qed.

Lemma str_in_swap (s a b : str) : str_in s [a; b] = str_in s [b; a].
Proof. unfold str_in. cbn [existsb]. rewrite !orb_false_r. apply orb_comm. Qed.

(** X1: [name] and [surname] setters refuse exactly the empty string; on
    any other value they return the entry with that field replaced and the
    three other fields as they were. *)
Theorem set_name_surname_spec (self : entry) (v : str) :
  (v = [] ->
   PhoneBookEntry.set_name self v =
     Raises (ValueError (lit "Name cannot be empty")) /\
   PhoneBookEntry.set_surname self v =
     Raises (ValueError (lit "Surname cannot be empty"))) /\
  (v <> [] ->
   PhoneBookEntry.set_name self v =
     Returns (PhoneBookEntry.Build v (PhoneBookEntry.surname self)
                (PhoneBookEntry.separator self)
                (PhoneBookEntry.phone_number self)) /\
   PhoneBookEntry.set_surname self v =
     Returns (PhoneBookEntry.Build (PhoneBookEntry.name self) v
                (PhoneBookEntry.separator self)
                (PhoneBookEntry.phone_number self))).
Proof.
  split.
  - intros ->. split; reflexivity.
  - intros Hv. destruct v; [congruence|]. split; reflexivity.
Qed.

Lemma set_name_surname_spec_witness :
  PhoneBookEntry.set_name (john_smith (lit "12345")) (lit "") =
    Raises (ValueError (lit "Name cannot be empty")) /\
  PhoneBookEntry.set_surname (john_smith (lit "12345")) (lit "Doe") =
    Returns (PhoneBookEntry.Build (lit "John") (lit "Doe") (lit "-") (lit "12345")).
Proof.
  split.
  - apply (proj1 (set_name_surname_spec (john_smith (lit "12345")) (lit ""))).
    reflexivity.
  - apply (proj2 (set_name_surname_spec (john_smith (lit "12345")) (lit "Doe"))).
    discriminate.
Defined.

(** X2: the [separator] setter accepts exactly the two strings "-" and ":":
    for them it returns the entry with the separator replaced and the other
    fields as they were, for every other string (the empty one, longer
    ones) it raises [ValueError]. *)
Theorem set_separator_spec (self : entry) (v : str) :
  (v = lit "-" \/ v = lit ":" ->
   PhoneBookEntry.set_separator self v =
     Returns (PhoneBookEntry.Build (PhoneBookEntry.name self)
                (PhoneBookEntry.surname self) v
                (PhoneBookEntry.phone_number self))) /\
  (v <> lit "-" -> v <> lit ":" ->
   PhoneBookEntry.set_separator self v =
     Raises (ValueError (lit "Separator must be '-' or ':'"))).
Proof.
  unfold PhoneBookEntry.set_separator. split.
  - intros H. apply str_in_pair in H. rewrite H. reflexivity.
  - intros H1 H2. destruct (str_in v [lit "-"; lit ":"]) eqn:E; [|reflexivity].
    apply str_in_pair in E. tauto.
Qed.

Lemma set_separator_spec_witness :
  PhoneBookEntry.set_separator (john_smith (lit "12345")) (lit ":") =
    Returns (PhoneBookEntry.Build (lit "John") (lit "Smith") (lit ":") (lit "12345")) /\
  PhoneBookEntry.set_separator (john_smith (lit "12345")) (lit "--") =
    Raises (ValueError (lit "Separator must be '-' or ':'")).
Proof.
  split.
  - apply (proj1 (set_separator_spec (john_smith (lit "12345")) (lit ":"))).
    right. reflexivity.
  - apply (proj2 (set_separator_spec (john_smith (lit "12345")) (lit "--")));
      discriminate.
Defined.

(** Each message is in the result exactly when its test fails. *)
Lemma validate_cases (e : entry) :
  validate_phone_book_entry e =
  (if truthy (PhoneBookEntry.name e) then [] else [lit "Name cannot be empty"])
  ++ (if isdigit (PhoneBookEntry.phone_number e) then []
      else [lit "phone number must be numeric"])
  ++ (if (len (PhoneBookEntry.phone_number e) =? 9)%nat then []
      else [lit "phone number must be 9 digits"])
  ++ (if str_in (PhoneBookEntry.separator e) [lit ":"; lit "-"] then []
      else [lit "the separator should be `:` or `-`"]).
Proof.
  unfold validate_phone_book_entry, append_if.
  destruct (truthy _), (isdigit _), (len _ =? 9)%nat, (str_in _ _); reflexivity.
Qed.

(** X3: the validator reports a message exactly when the test of that
    message fails: the name message for the empty name, the numeric message
    when the phone number is empty or has a character that is not a digit,
    the length message when its length is not 9, the separator message
    when the separator is neither ":" nor "-". *)
Theorem validate_messages (e : entry) :
  (In (lit "Name cannot be empty") (validate_phone_book_entry e) <->
   PhoneBookEntry.name e = []) /\
  (In (lit "phone number must be numeric") (validate_phone_book_entry e) <->
   ~ digit_characters (PhoneBookEntry.phone_number e)) /\
  (In (lit "phone number must be 9 digits") (validate_phone_book_entry e) <->
   len (PhoneBookEntry.phone_number e) <> 9) /\
  (In (lit "the separator should be `:` or `-`") (validate_phone_book_entry e) <->
   PhoneBookEntry.separator e <> lit ":" /\ PhoneBookEntry.separator e <> lit "-").
Proof.
  rewrite validate_cases.
  pose proof (truthy_spec (PhoneBookEntry.name e)) as Hn.
  pose proof (truthy_false (PhoneBookEntry.name e)) as Hn'.
  pose proof (isdigit_spec (PhoneBookEntry.phone_number e)) as Hd.
  pose proof (Nat.eqb_eq (len (PhoneBookEntry.phone_number e)) 9) as Hl.
  pose proof (str_in_pair (PhoneBookEntry.separator e) (lit ":") (lit "-")) as Hs.
  destruct (truthy _), (isdigit _), (len _ =? 9)%nat, (str_in _ _);
    cbn [app In];
    repeat split; intros;
    repeat match goal with
           | Hx : _ \/ _ |- _ => destruct Hx as [Hx | Hx]
           | Hx : lit _ = lit _ |- _ => vm_compute in Hx; discriminate Hx
           | Hx : False |- _ => destruct Hx
           end;
    try (intuition congruence); auto 6;
    try (exfalso; intuition congruence).
Qed.

(** X4: the validator finds nothing exactly when the setters of name,
    separator and phone number accept the values the entry holds: the
    validator and these three setters draw the same line, although their
    messages differ. *)
Theorem validate_clean_iff_setters_accept (e : entry) :
  validate_phone_book_entry e = [] <->
  PhoneBookEntry.set_name e (PhoneBookEntry.name e) = Returns e /\
  PhoneBookEntry.set_separator e (PhoneBookEntry.separator e) = Returns e /\
  PhoneBookEntry.set_phone_number e (PhoneBookEntry.phone_number e) = Returns e.
Proof.
  rewrite validate_cases.
  unfold PhoneBookEntry.set_name, PhoneBookEntry.set_separator,
    PhoneBookEntry.set_phone_number.
  rewrite (str_in_swap (PhoneBookEntry.separator e) (lit "-") (lit ":")).
  destruct e as [n s sep p]. cbn [PhoneBookEntry.name PhoneBookEntry.separator
    PhoneBookEntry.phone_number PhoneBookEntry._name PhoneBookEntry._surname
    PhoneBookEntry._separator PhoneBookEntry._phoneNumber].
  destruct (truthy n), (isdigit p), (len p =? 9)%nat, (str_in sep _);
    cbn [negb app]; split; intros H;
    try discriminate H; try (repeat split; reflexivity);
    destruct H as (H1 & H2 & H3); discriminate.
Qed.

(** X5: setting name, separator and phone number one after the other, from
    any entry, gives when the three calls succeed an entry that holds the
    three values, keeps the surname, and passes the validator. *)
Theorem setters_make_valid (e0 e1 e2 e3 : entry) (n sep p : str) :
  PhoneBookEntry.set_name e0 n = Returns e1 ->
  PhoneBookEntry.set_separator e1 sep = Returns e2 ->
  PhoneBookEntry.set_phone_number e2 p = Returns e3 ->
  e3 = PhoneBookEntry.Build n (PhoneBookEntry.surname e0) sep p /\
  validate_phone_book_entry e3 = [].
Proof.
  unfold PhoneBookEntry.set_name, PhoneBookEntry.set_separator,
    PhoneBookEntry.set_phone_number.
  destruct (truthy n) eqn:Hn; [|discriminate].
  destruct (str_in sep [lit "-"; lit ":"]) eqn:Hs; [|discriminate].
  destruct (isdigit p) eqn:Hd; [|discriminate].
  destruct (len p =? 9)%nat eqn:Hl; [|discriminate].
  cbn [negb]. intros H1 H2 H3.
  injection H1 as <-. injection H2 as <-. injection H3 as <-.
  split; [reflexivity|].
  rewrite validate_cases.
  cbn [PhoneBookEntry.name PhoneBookEntry.separator PhoneBookEntry.phone_number
       PhoneBookEntry._name PhoneBookEntry._separator PhoneBookEntry._phoneNumber].
  rewrite str_in_swap, Hn, Hs, Hd, Hl. reflexivity.
Qed.

Lemma setters_make_valid_witness :
  validate_phone_book_entry
    (PhoneBookEntry.Build (lit "Ann") (lit "") (lit ":") (lit "123456789")) = [].
Proof.
  apply (@setters_make_valid
           (PhoneBookEntry.init None None None None)
           (PhoneBookEntry.Build (lit "Ann") (lit "") (lit "") (lit ""))
           (PhoneBookEntry.Build (lit "Ann") (lit "") (lit ":") (lit ""))
           (PhoneBookEntry.Build (lit "Ann") (lit "") (lit ":") (lit "123456789"))
           (lit "Ann") (lit ":") (lit "123456789"));
    reflexivity.
Defined.

(** X6: the validator never looks at the surname: two entries that differ
    in the surname only get the same messages, and a successful call of the
    surname setter leaves the result of the validator as it was. *)
Theorem validate_ignores_surname (e : entry) (s : str) :
  validate_phone_book_entry
    (PhoneBookEntry.Build (PhoneBookEntry.name e) s (PhoneBookEntry.separator e)
                          (PhoneBookEntry.phone_number e))
  = validate_phone_book_entry e /\
  forall e', PhoneBookEntry.set_surname e s = Returns e' ->
             validate_phone_book_entry e' = validate_phone_book_entry e.
Proof.
  split; [reflexivity|].
  intros e'. unfold PhoneBookEntry.set_surname.
  destruct (truthy s); [|discriminate].
  cbn [negb]. intros H. injection H as <-. reflexivity.
Qed.

Lemma validate_ignores_surname_witness :
  validate_phone_book_entry
    (PhoneBookEntry.Build (lit "John") (lit "Doe") (lit "-") (lit "12345"))
  = validate_phone_book_entry (john_smith (lit "12345")).
Proof.
  apply (proj2 (validate_ignores_surname (john_smith (lit "12345")) (lit "Doe"))).
  reflexivity.
Defined.

(* ===================================================================== *)
(** * More about the parser *)
(* ===================================================================== *)

Lemma split_scan_word (t rest : str) :
  t <> [] -> no_whitespace t ->
  split_scan [] (t ++ 32%N :: rest) = t :: split_scan [] rest.
Proof.
  intros Ht Hn. rewrite split_scan_token by assumption.
  rewrite split_scan_space by reflexivity. simpl.
  rewrite flush_token by assumption. reflexivity.
Qed.

Lemma split_scan_last_word (t : str) :
  t <> [] -> no_whitespace t -> split_scan [] t = [t].
Proof.
  intros Ht Hn. rewrite <- (app_nil_r t) at 1.
  rewrite split_scan_token by assumption. simpl. apply flush_token, Ht.
Qed.

(** The printed form of a tokenized entry has the fields as its tokens,
    and the parser makes the entry from them again. *)
Lemma repr_entries (e : entry) :
  tokenized e -> entries_of_tokens (split (PhoneBookEntry.repr e)) = [e].
Proof.
  destruct e as [n s sep p]. unfold tokenized, PhoneBookEntry.repr, split.
  cbn [PhoneBookEntry.name PhoneBookEntry.surname PhoneBookEntry.separator
       PhoneBookEntry.phone_number PhoneBookEntry._name PhoneBookEntry._surname
       PhoneBookEntry._separator PhoneBookEntry._phoneNumber].
  intros (Hn & Hsep & Hp & Wn & Ws & Wsep & Wp).
  change (lit " ") with [32%N]. cbn [app].
  rewrite (split_scan_word _ Hn Wn).
  destruct s as [|c s].
  - cbn [app]. rewrite split_scan_space by reflexivity. cbn [flush app].
    rewrite (split_scan_word _ Hsep Wsep), (split_scan_last_word Hp Wp).
    reflexivity.
  - assert (Hs : c :: s <> []) by discriminate.
    rewrite (split_scan_word _ Hs Ws), (split_scan_word _ Hsep Wsep),
      (split_scan_last_word Hp Wp).
    reflexivity.
Qed.

Lemma concat_singletons {A} (l : list A) : concat (map (fun x => [x]) l) = l.
Proof. induction l as [|x l IH]; simpl; [reflexivity | rewrite IH; reflexivity]. Qed.

Lemma read_reprs (es : list entry) :
  Forall tokenized es ->
  concat (map (fun l => entries_of_tokens (split l)) (map PhoneBookEntry.repr es))
  = es.
Proof.
  intros H. rewrite map_map. rewrite <- (concat_singletons es) at 2.
  f_equal. apply map_ext_in. intros e He.
  rewrite Forall_forall in H. apply repr_entries, H, He.
Qed.

Lemma parsed_tokenized (lines : list str) :
  Forall tokenized (concat (map (fun l => entries_of_tokens (split l)) lines)).
Proof.
  apply Forall_concat, Forall_map, Forall_forall. intros line _.
  apply entries_of_tokens_shape, (tokens_shape (split_tokens line)).
Qed.

(** X7: printing and reading are inverse on tokenized entries: a file whose
    lines are the printed forms of entries whose name, separator and phone
    number are non-empty and whose fields hold no whitespace (the surname
    may be empty) is read as exactly these entries, in order. *)
Theorem read_phone_book_of_reprs (fs : file_system) (path : str)
  (es : list entry) (out0 : stdout) :
  fs path = Text (map PhoneBookEntry.repr es) None ->
  Forall tokenized es ->
  read_phone_book fs path out0 = (Returns es, out0).
Proof.
  intros Hfs Hes. rewrite (read_phone_book_text fs path out0 Hfs).
  rewrite read_reprs by assumption. reflexivity.
Qed.

Lemma read_phone_book_of_reprs_witness :
  read_phone_book sample_copy (lit "copy.txt") [] =
  (Returns [ PhoneBookEntry.Build (lit "Ann") (lit "Lee") (lit "-") (lit "123456789");
             PhoneBookEntry.Build (lit "Bob") (lit "") (lit ":") (lit "12345") ],
   []).
Proof.
  apply (@read_phone_book_of_reprs sample_copy (lit "copy.txt")
           [ PhoneBookEntry.Build (lit "Ann") (lit "Lee") (lit "-") (lit "123456789");
             PhoneBookEntry.Build (lit "Bob") (lit "") (lit ":") (lit "12345") ] []).
  - reflexivity.
  - repeat constructor; discriminate.
Defined.

(** X8: what the parser has read can be printed and read again: the
    printed forms of the entries read from one file, stored as the lines of
    another file, are read as the same entries. *)
Theorem read_phone_book_reread (fs : file_system) (path path' : str)
  (es : list entry) (out0 out1 out2 : stdout) :
  read_phone_book fs path out0 = (Returns es, out1) ->
  fs path' = Text (map PhoneBookEntry.repr es) None ->
  read_phone_book fs path' out2 = (Returns es, out2).
Proof.
  intros Hread Hfs. apply read_phone_book_inv in Hread.
  destruct Hread as (lines & _ & ->).
  rewrite (read_phone_book_text fs path' out2 Hfs).
  rewrite read_reprs by apply parsed_tokenized. reflexivity.
Qed.

Lemma read_phone_book_reread_witness :
  read_phone_book sample_copy (lit "copy.txt") [] =
  (Returns [ PhoneBookEntry.Build (lit "Ann") (lit "Lee") (lit "-") (lit "123456789");
             PhoneBookEntry.Build (lit "Bob") (lit "") (lit ":") (lit "12345") ],
   []).
Proof.
  apply (@read_phone_book_reread sample_copy (lit "book.txt") (lit "copy.txt")
           [ PhoneBookEntry.Build (lit "Ann") (lit "Lee") (lit "-") (lit "123456789");
             PhoneBookEntry.Build (lit "Bob") (lit "") (lit ":") (lit "12345") ]
           [] [] []).
  - vm_compute. reflexivity.
  - reflexivity.
Defined.

(** What the two [except] clauses make of an exception raised by [open]
    or by the iteration. *)
Lemma read_phone_book_raise (fs : file_system) (path : str) (e : exn)
  (out0 : stdout) :
  fs path = Unopened e \/ (exists lines, fs path = Text lines (Some e)) ->
  read_phone_book fs path out0 =
  match e with
  | FileNotFoundError =>
      (Raises (SystemExit 1), out0 ++ [lit "File not found: " ++ path])
  | IOError msg =>
      (Raises (SystemExit 1),
       out0 ++ [lit "An error occurred while reading the file: " ++ msg])
  | _ => (Raises e, out0)
  end.
Proof.
  intros [Hfs | [lines Hfs]]; unfold read_phone_book, try_except, bind;
    rewrite Hfs; [|rewrite for_each_read_line]; destruct e; reflexivity.
Qed.

(** X9: the call returns, printing nothing, only for a file that opens and
    is read to its end.  When [open] or the iteration raises
    [FileNotFoundError] it prints "File not found: " and the path, when
    they raise another [IOError] it prints "An error occurred while
    reading the file: " and the message of the error, and in both cases
    it raises [SystemExit] with status 1.  Every other exception they
    raise, such as [UnicodeDecodeError] for bytes that are not text or
    [ValueError] for a null character in the path, leaves the call as it
    is, with nothing printed.  In every failure the entries read before
    it are lost. *)
Theorem read_phone_book_outcomes (fs : file_system) (path : str) (out0 : stdout) :
  match fs path with
  | Text lines None =>
      exists es, read_phone_book fs path out0 = (Returns es, out0)
  | Unopened e | Text _ (Some e) =>
      match e with
      | FileNotFoundError =>
          read_phone_book fs path out0 =
          (Raises (SystemExit 1), out0 ++ [lit "File not found: " ++ path])
      | IOError msg =>
          read_phone_book fs path out0 =
          (Raises (SystemExit 1),
           out0 ++ [lit "An error occurred while reading the file: " ++ msg])
      | _ => read_phone_book fs path out0 = (Raises e, out0)
      end
  end.
Proof.
  destruct (fs path) as [e|lines [e|]] eqn:Hfs.
  - assert (H := @read_phone_book_raise fs path e out0 (or_introl Hfs)).
    destruct e; exact H.
  - assert (H := @read_phone_book_raise fs path e out0
                   (or_intror (ex_intro _ lines Hfs))).
    destruct e; exact H.
  - eexists. apply read_phone_book_text, Hfs.
Qed.

(** A file that stops being text after its first line, and a path that
    [open] refuses: the exception is not caught. *)
Example read_phone_book_undecodable :
  read_phone_book
    (fun _ => Text [lit "Ann Lee - 123456789"]
                   (Some (UnicodeDecodeError (lit "invalid start byte"))))
    (lit "book.bin") [] =
  (Raises (UnicodeDecodeError (lit "invalid start byte")), []).
Proof. vm_compute. reflexivity. Qed.

Example read_phone_book_null_path :
  read_phone_book (fun _ => Unopened (ValueError (lit "embedded null byte")))
                  [0%N] [] =
  (Raises (ValueError (lit "embedded null byte")), []).
Proof. vm_compute. reflexivity. Qed.

Lemma entries_of_tokens_length (ts : list str) :
  length (entries_of_tokens ts) =
  if (length ts =? 3) || (length ts =? 4) then 1 else 0.
Proof. destruct ts as [|a [|b [|c [|d [|e l]]]]]; reflexivity. Qed.

(** X10: the parser returns one entry for each line of 3 or 4 tokens and
    nothing for the other lines, so the number of entries is the number of
    such lines and never exceeds the number of lines. *)
Theorem read_phone_book_count (fs : file_system) (path : str)
  (lines : list str) (out0 out1 : stdout) (es : list entry) :
  fs path = Text lines None ->
  read_phone_book fs path out0 = (Returns es, out1) ->
  length es = length (filter accepted lines) /\ length es <= length lines.
Proof.
  intros Hfs Hread. rewrite (read_phone_book_text fs path out0 Hfs) in Hread.
  injection Hread as <- _.
  assert (E : forall l : list str,
            length (concat (map (fun l => entries_of_tokens (split l)) l)) =
            length (filter accepted l)).
  { induction l as [|line l IH]; [reflexivity|].
    cbn [map concat filter]. rewrite length_app, entries_of_tokens_length, IH.
    unfold accepted at 2. destruct (_ || _); reflexivity. }
  split; [apply E|]. rewrite E. apply filter_length_le.
Qed.

Lemma read_phone_book_count_witness :
  length [ PhoneBookEntry.Build (lit "Ann") (lit "Lee") (lit "-") (lit "123456789");
           PhoneBookEntry.Build (lit "Bob") (lit "") (lit ":") (lit "12345") ]
  = length (filter accepted sample_lines) /\
  2 <= length sample_lines.
Proof.
  apply (@read_phone_book_count sample_files (lit "book.txt") sample_lines [] []).
  - reflexivity.
  - vm_compute. reflexivity.
Defined.

(** X11: reading is line by line: the entries of a file whose lines are the
    lines of a first file followed by the lines of a second one are the
    entries of the first followed by the entries of the second. *)
Theorem read_phone_book_app (fs : file_system) (p1 p2 p12 : str)
  (l1 l2 : list str) (out0 : stdout) :
  fs p1 = Text l1 None -> fs p2 = Text l2 None -> fs p12 = Text (l1 ++ l2) None ->
  exists es1 es2,
    read_phone_book fs p1 out0 = (Returns es1, out0) /\
    read_phone_book fs p2 out0 = (Returns es2, out0) /\
    read_phone_book fs p12 out0 = (Returns (es1 ++ es2), out0).
Proof.
  intros H1 H2 H12.
  rewrite (read_phone_book_text fs p1 out0 H1),
    (read_phone_book_text fs p2 out0 H2),
    (read_phone_book_text fs p12 out0 H12).
  do 2 eexists. split; [reflexivity|]. split; [reflexivity|].
  rewrite map_app, concat_app. reflexivity.
Qed.

Lemma read_phone_book_app_witness :
  exists es1 es2,
    read_phone_book sample_copy (lit "book.txt") [] = (Returns es1, []) /\
    read_phone_book sample_copy (lit "copy.txt") [] = (Returns es2, []) /\
    read_phone_book sample_copy (lit "both.txt") [] = (Returns (es1 ++ es2), []).
Proof.
  apply (@read_phone_book_app sample_copy (lit "book.txt") (lit "copy.txt")
           (lit "both.txt") sample_lines
           [lit "Ann Lee - 123456789"; lit "Bob  : 12345"] []);
    reflexivity.
Defined.

(* ===================================================================== *)
(** * More about the sorter *)
(* ===================================================================== *)

Lemma sort_field_ordered (c : criterion) (ordering : str) (l : list entry) :
  ordered c ordering
    (sort_with pyval_lt (fun e => PyStr (field c e))
               (str_eqb ordering (lit "descending")) l).
Proof.
  unfold ordered. destruct (str_eqb ordering (lit "descending")).
  - apply sort_field_descending.
  - apply sort_field_ascending.
Qed.

Lemma sort_field_fixed (c : criterion) (ordering : str) (l : list entry) :
  ordered c ordering l ->
  sort_with pyval_lt (fun e => PyStr (field c e))
            (str_eqb ordering (lit "descending")) l = l.
Proof.
  unfold ordered. destruct (str_eqb ordering (lit "descending")); intros H; symmetry.
  - apply descending_stable_unique; [exact H | intros v; reflexivity].
  - apply ascending_stable_unique; [exact H | intros v; reflexivity].
Qed.

Lemma StronglySorted_filter {A} (R : A -> A -> Prop) (p : A -> bool) (l : list A) :
  StronglySorted R l -> StronglySorted R (filter p l).
Proof.
  induction 1 as [|x l Hl IH Hx]; simpl; [constructor|].
  destruct (p x); [|exact IH]. constructor; [exact IH|].
  rewrite Forall_forall in *. intros y Hy. apply Hx.
  apply filter_In in Hy. apply Hy.
Qed.

Lemma ordered_filter (c : criterion) (ordering : str) (p : entry -> bool)
  (l : list entry) :
  ordered c ordering l -> ordered c ordering (filter p l).
Proof.
  unfold ordered, ascending, descending.
  destruct (str_eqb ordering (lit "descending")); apply StronglySorted_filter.
Qed.

(** X12: a list that is already in the requested order comes back
    unchanged: ascending lists for every ordering but "descending",
    descending lists for "descending".  The empty list, a list of one
    entry and a list whose entries all have the same value on the field
    are such lists for both orders. *)
Theorem sort_phone_book_of_ordered (l : list entry) (c : criterion)
  (ordering : str) (out0 : stdout) :
  ordered c ordering l ->
  sort_phone_book l (criterion_name c) ordering out0 = (Returns l, out0).
Proof.
  intros H. rewrite sort_phone_book_returns, (sort_field_fixed c ordering l H).
  reflexivity.
Qed.

Lemma sort_phone_book_of_ordered_witness :
  sort_phone_book sample_book (lit "surname") (lit "ascending") [] =
  (Returns sample_book, []).
Proof.
  apply (@sort_phone_book_of_ordered sample_book BySurname (lit "ascending") []).
  change (ascending BySurname sample_book). unfold ascending, sample_book.
  repeat (apply SSorted_cons || apply SSorted_nil || apply Forall_cons
          || apply Forall_nil);
    apply str_lt_lex_le; reflexivity.
Defined.

(** X13: sorting is idempotent: sorting the result of a call again, by the
    same criterion and ordering, returns that result unchanged. *)
Theorem sort_phone_book_idempotent (l out : list entry) (c : criterion)
  (ordering : str) (out0 out1 : stdout) :
  sort_phone_book l (criterion_name c) ordering out0 = (Returns out, out1) ->
  sort_phone_book out (criterion_name c) ordering out1 = (Returns out, out1).
Proof.
  rewrite sort_phone_book_returns. intros H. injection H as <- _.
  rewrite sort_phone_book_returns, sort_field_fixed; [reflexivity|].
  apply sort_field_ordered.
Qed.

Lemma sort_phone_book_idempotent_witness :
  sort_phone_book
    [ PhoneBookEntry.Build (lit "Ann") (lit "Lee") (lit "-") (lit "123456789");
      PhoneBookEntry.Build (lit "Bob") (lit "") (lit ":") (lit "12345");
      PhoneBookEntry.Build (lit "Bob") (lit "Ray") (lit "-") (lit "987654321") ]
    (lit "name") (lit "ascending") [] =
  (Returns
     [ PhoneBookEntry.Build (lit "Ann") (lit "Lee") (lit "-") (lit "123456789");
       PhoneBookEntry.Build (lit "Bob") (lit "") (lit ":") (lit "12345");
       PhoneBookEntry.Build (lit "Bob") (lit "Ray") (lit "-") (lit "987654321") ],
   []).
Proof.
  apply (@sort_phone_book_idempotent sample_book _ ByName (lit "ascending") [] []).
  vm_compute. reflexivity.
Defined.

(** X14: two sorts in a row order by two fields: after a sort on a first
    field and then a sort on a second field, the list is a rearrangement
    of the input in the second order, and the entries of each value of the
    second field are among themselves in the first order. *)
Theorem sort_phone_book_twice (l : list entry) (c1 c2 : criterion)
  (ordering1 ordering2 : str) (out0 : stdout) :
  exists out1 out2,
    sort_phone_book l (criterion_name c1) ordering1 out0 = (Returns out1, out0) /\
    sort_phone_book out1 (criterion_name c2) ordering2 out0 = (Returns out2, out0) /\
    Permutation l out2 /\
    ordered c2 ordering2 out2 /\
    forall v, ordered c1 ordering1 (filter (with_value c2 v) out2).
Proof.
  do 2 eexists. split; [apply sort_phone_book_returns|].
  split; [apply sort_phone_book_returns|].
  split; [|split; [apply sort_field_ordered|]].
  - eapply Permutation_trans; apply sort_with_perm.
  - intros v. rewrite (sort_field_order_kept c2 _ _ v).
    apply ordered_filter, sort_field_ordered.
Qed.

Lemma filter_distinct_short (c : criterion) (v : str) (l : list entry) :
  NoDup (map (field c) l) -> length (filter (with_value c v) l) <= 1.
Proof.
  induction l as [|x l IH]; intros Hd; simpl; [lia|].
  inversion Hd as [|k ks Hnotin Hd']; subst.
  unfold with_value at 1. destruct (str_eqb (field c x) v) eqn:E.
  - apply str_eqb_eq in E. rewrite filter_none; [simpl; lia|].
    intros z Hz. apply str_eqb_neq. intros Hzv. apply Hnotin.
    rewrite E, <- Hzv. apply in_map, Hz.
  - apply IH, Hd'.
Qed.

Lemma rev_short {A} (l : list A) : length l <= 1 -> rev l = l.
Proof. destruct l as [|x [|y l]]; simpl; intros H; try reflexivity; lia. Qed.

(** X15: when no two entries have the same value on the chosen field, the
    descending result is the ascending result read backwards.  (With equal
    values it is not: equal entries keep their input order in both.) *)
Theorem sort_phone_book_descending_rev (l : list entry) (c : criterion)
  (out0 : stdout) :
  NoDup (map (field c) l) ->
  exists out,
    sort_phone_book l (criterion_name c) (lit "ascending") out0 = (Returns out, out0) /\
    sort_phone_book l (criterion_name c) (lit "descending") out0 =
    (Returns (rev out), out0).
Proof.
  intros Hd. eexists. split; [apply sort_phone_book_returns|].
  rewrite sort_phone_book_returns. f_equal. f_equal.
  change (str_eqb (lit "descending") (lit "descending")) with true.
  change (str_eqb (lit "ascending") (lit "descending")) with false.
  symmetry. apply descending_stable_unique.
  - apply (StronglySorted_rev (R := fun a b => lex_le (field c a) (field c b))).
    apply sort_field_ascending.
  - intros v. rewrite filter_rev, (sort_field_order_kept c false l v).
    apply rev_short, filter_distinct_short, Hd.
Qed.

Lemma sort_phone_book_descending_rev_witness :
  exists out,
    sort_phone_book sample_book (lit "phone_number") (lit "ascending") [] =
    (Returns out, []) /\
    sort_phone_book sample_book (lit "phone_number") (lit "descending") [] =
    (Returns (rev out), []).
Proof.
  apply (@sort_phone_book_descending_rev sample_book ByPhoneNumber []).
  repeat constructor; simpl; intuition discriminate.
Defined.

(* ===================================================================== *)
(** * About main *)
(* ===================================================================== *)

Lemma bind_returns {A B} (m : M A) (k : A -> M B) (a : A) (out0 out1 : stdout) :
  m out0 = (Returns a, out1) -> bind m k out0 = k a out1.
Proof. intros H. unfold bind. rewrite H. reflexivity. Qed.

Lemma bind_raises {A B} (m : M A) (k : A -> M B) (e : exn) (out0 out1 : stdout) :
  m out0 = (Raises e, out1) -> bind m k out0 = (Raises e, out1).
Proof. intros H. unfold bind. rewrite H. reflexivity. Qed.

(** The first loop prints the entries and collects the problems. *)
Lemma main_first_loop (es : list entry) (acc : list (list str)) (out0 : stdout) :
  for_each es
    (fun validation_messages phone_book_entry =>
       print (PhoneBookEntry.repr phone_book_entry) ;;
       let validation_message := validate_phone_book_entry phone_book_entry in
       if nonempty validation_message
       then ret (validation_messages ++ [validation_message])
       else ret validation_messages)
    acc out0
  = (Returns (acc ++ problems es), out0 ++ map PhoneBookEntry.repr es).
Proof.
  revert acc out0. induction es as [|e es IH]; intros acc out0.
  - simpl. unfold ret, problems. simpl. rewrite !app_nil_r. reflexivity.
  - cbn [for_each]. unfold bind at 1. unfold bind at 1. unfold print at 1.
    unfold problems. cbn [map filter].
    destruct (nonempty (validate_phone_book_entry e)); unfold ret at 1;
      rewrite IH; unfold problems; rewrite <- !app_assoc; reflexivity.
Qed.

(** The second loop prints one numbered line for each problem. *)
Lemma main_second_loop (ps : list (list str)) (a : nat) (out0 : stdout) :
  for_each (combine (seq a (length ps)) ps)
    (fun (_ : unit) (numbered_message : nat * list str) =>
       let i := fst numbered_message in
       let validation_message := snd numbered_message in
       print (lit "line" ++ str_of_int (i + 1) ++ lit ": "
                ++ join (lit ", ") validation_message ++ lit "."))
    tt out0
  = (Returns tt,
     out0 ++ map (fun np => report_line (fst np) (snd np))
                 (combine (seq (S a) (length ps)) ps)).
Proof.
  revert a out0. induction ps as [|p ps IH]; intros a out0.
  - simpl. unfold ret. rewrite app_nil_r. reflexivity.
  - cbn [length seq combine for_each map]. unfold bind at 1. unfold print at 1.
    rewrite IH. cbn [fst snd]. rewrite <- app_assoc.
    replace (a + 1) with (S a) by lia. reflexivity.
Qed.

(** What [main] prints after the sort has returned. *)
Lemma main_after_sort (fs : file_system) (path criteria ordering : str)
  (es sorted_entries : list entry) (out0 : stdout) :
  read_phone_book fs path out0 = (Returns es, out0) ->
  sort_phone_book es criteria ordering out0 = (Returns sorted_entries, out0) ->
  main fs path criteria ordering out0 =
  (Returns tt,
   out0 ++ file_structure :: map PhoneBookEntry.repr sorted_entries
        ++ validations_section sorted_entries).
Proof.
  intros Hread Hsort. unfold main.
  rewrite (bind_returns _ _ _ Hread), (bind_returns _ _ _ Hsort).
  unfold bind at 1. unfold print at 1.
  unfold bind at 1. rewrite main_first_loop. cbn [app].
  unfold validations_section.
  destruct (problems sorted_entries) as [|p ps] eqn:Hps.
  - cbn [nonempty]. unfold ret. rewrite app_nil_r, <- app_assoc. reflexivity.
  - cbn [nonempty]. unfold bind at 1. unfold print at 1.
    unfold enumerate. rewrite main_second_loop.
    rewrite <- !app_assoc. reflexivity.
Qed.




(** X16: when the file is read to its end and the criterion is allowed,
    [main] returns after printing, in this order: the heading "File
    Structure:", the sorted entries in their printed form, and, only when
    some entry has a problem, the heading "Validations:" with one line
    "line<n>: <messages joined by comma and space>." for each entry with
    a problem; n counts these entries from 1, in sorted order, and is not
    the position of the entry in the file. *)
Theorem main_output (fs : file_system) (path : str) (lines : list str)
  (c : criterion) (ordering : str) (out0 : stdout) :
  fs path = Text lines None ->
  exists es sorted_entries,
    read_phone_book fs path out0 = (Returns es, out0) /\
    sort_phone_book es (criterion_name c) ordering out0 =
      (Returns sorted_entries, out0) /\
    main fs path (criterion_name c) ordering out0 =
    (Returns tt,
     out0 ++ file_structure :: map PhoneBookEntry.repr sorted_entries
          ++ match problems sorted_entries with
             | [] => []
             | ps => validations ::
                     map (fun np => report_line (fst np) (snd np))
                         (combine (seq 1 (length ps)) ps)
             end).
Proof.
  intros Hfs. do 2 eexists.
  split; [apply read_phone_book_text, Hfs|].
  split; [apply sort_phone_book_returns|].
  eapply main_after_sort;
    [apply read_phone_book_text, Hfs | apply sort_phone_book_returns].
Qed.

Lemma main_output_witness :
  exists es sorted_entries,
    read_phone_book sample_files (lit "book.txt") [] = (Returns es, []) /\
    sort_phone_book es (lit "name") (lit "ascending") [] =
      (Returns sorted_entries, []) /\
    main sample_files (lit "book.txt") (lit "name") (lit "ascending") [] =
    (Returns tt,
     [] ++ file_structure :: map PhoneBookEntry.repr sorted_entries
        ++ match problems sorted_entries with
           | [] => []
           | ps => validations ::
                   map (fun np => report_line (fst np) (snd np))
                       (combine (seq 1 (length ps)) ps)
           end).
Proof.
  exact (@main_output sample_files (lit "book.txt") sample_lines ByName
           (lit "ascending") [] eq_refl).
Defined.

(** The example of two lines, the second with a short phone number. *)
Example main_sample :
  main sample_files (lit "book.txt") (lit "name") (lit "ascending") [] =
  (Returns tt,
   [ file_structure; lit "Ann Lee - 123456789"; lit "Bob  : 12345";
     validations; lit "line1: phone number must be 9 digits." ]).
Proof. vm_compute. reflexivity. Qed.

(** X17: [main] fails in these ways and prints nothing but the one line
    named.  When [open] or the reading raises [FileNotFoundError] it prints
    "File not found: " and the path, when they raise another [IOError] it
    prints "An error occurred while reading the file: " and the message,
    and for a file that is read to its end with a criterion outside the
    three it prints the warning about the criterion; in these three cases
    it ends with [SystemExit] of status 1.  Every other exception of
    [open] or of the reading, such as [UnicodeDecodeError] or the
    [ValueError] for a null character in the path, leaves [main] as it is,
    with nothing printed.  A failure of the file comes before any look at
    the criterion. *)
Theorem main_failures (fs : file_system) (path criteria ordering : str)
  (out0 : stdout) :
  match fs path with
  | Text lines None =>
      ~ In criteria allowed_criteria ->
      main fs path criteria ordering out0 =
      (Raises (SystemExit 1), out0 ++ [wrong_criteria])
  | Unopened e | Text _ (Some e) =>
      match e with
      | FileNotFoundError =>
          main fs path criteria ordering out0 =
          (Raises (SystemExit 1), out0 ++ [lit "File not found: " ++ path])
      | IOError msg =>
          main fs path criteria ordering out0 =
          (Raises (SystemExit 1),
           out0 ++ [lit "An error occurred while reading the file: " ++ msg])
      | _ => main fs path criteria ordering out0 = (Raises e, out0)
      end
  end.
Proof.
  destruct (fs path) as [e|lines [e|]] eqn:Hfs.
  - assert (H := @read_phone_book_raise fs path e out0 (or_introl Hfs)).
    destruct e; unfold main; apply bind_raises; exact H.
  - assert (H := @read_phone_book_raise fs path e out0
                   (or_intror (ex_intro _ lines Hfs))).
    destruct e; unfold main; apply bind_raises; exact H.
  - intros Hnot. unfold main.
    rewrite (bind_returns _ _ _ (read_phone_book_text fs path out0 Hfs)).
    apply bind_raises.
    unfold sort_phone_book, bind.
    change [lit "name"; lit "surname"; lit "phone_number"] with allowed_criteria.
    destruct (str_in criteria allowed_criteria) eqn:Hin; [|reflexivity].
    exfalso. apply Hnot. apply allowed_criterion in Hin.
    destruct Hin as [[] ->]; simpl; auto.
Qed.

Lemma main_failures_witness :
  main sample_files (lit "book.txt") (lit "separator") (lit "ascending") [] =
  (Raises (SystemExit 1), [wrong_criteria]).
Proof.
  apply (main_failures sample_files (lit "book.txt") (lit "separator")
           (lit "ascending") []).
  intros H. vm_compute in H.
  repeat (destruct H as [H | H]; [discriminate H|]). exact H.
Defined.

(** An undecodable file ends [main] with the uncaught exception, a missing
    one with status 1. *)
Example main_undecodable :
  main (fun _ => Text [lit "Ann Lee - 123456789"]
                      (Some (UnicodeDecodeError (lit "invalid start byte"))))
       (lit "book.bin") (lit "name") (lit "ascending") [] =
  (Raises (UnicodeDecodeError (lit "invalid start byte")), []).
Proof. vm_compute. reflexivity. Qed.

Example main_missing :
  main sample_files (lit "none.txt") (lit "name") (lit "ascending") [] =
  (Raises (SystemExit 1), [lit "File not found: none.txt"]).
Proof. vm_compute. reflexivity. Qed.





(** X20: the validator returns at most four messages, each at most once and
    each one of its four texts, so an entry gets a problem line in the
    report of [main] exactly when one of the four tests fails. *)
Theorem validate_shape (e : entry) :
  NoDup (validate_phone_book_entry e) /\
  length (validate_phone_book_entry e) <= 4 /\
  incl (validate_phone_book_entry e)
       [ lit "Name cannot be empty"; lit "phone number must be numeric";
         lit "phone number must be 9 digits";
         lit "the separator should be `:` or `-`" ].
Proof.
  rewrite validate_cases.
  destruct (truthy _), (isdigit _), (len _ =? 9)%nat, (str_in _ _);
    cbn [app length]; (split; [|split; [lia|]]).
  all: match goal with
       | |- NoDup _ =>
           repeat (apply NoDup_cons; [cbn [In]; intros H;
             repeat (destruct H as [H | H]; [vm_compute in H; discriminate H|]);
             exact H|]); apply NoDup_nil
       | |- incl _ _ => intros m Hm; cbn [In] in *; tauto
       end.
Qed.

(* ===================================================================== *)
(** * Lines as the file gives them *)
(* ===================================================================== *)

Lemma split_trailing (s w : str) : whitespace w -> split (s ++ w) = split s.
Proof. intros Hw. unfold split. apply split_scan_trailing, Hw. Qed.

(** X21: the lines that the iteration over a file yields end with a line
    feed, the last one perhaps not.  A file whose lines are the printed
    forms of tokenized entries, each followed by any run of whitespace (a
    line feed, nothing), is read as exactly these entries, in order. *)
Theorem read_phone_book_of_printed_lines (fs : file_system) (path : str)
  (lines : list str) (es : list entry) (out0 : stdout) :
  fs path = Text lines None ->
  Forall2 (fun line e => exists w, whitespace w /\
                                   line = PhoneBookEntry.repr e ++ w) lines es ->
  Forall tokenized es ->
  read_phone_book fs path out0 = (Returns es, out0).
Proof.
  intros Hfs Hlines Hes. rewrite (read_phone_book_text fs path out0 Hfs).
  do 2 f_equal. clear Hfs.
  induction Hlines as [|line e lines es (w & Hw & ->) _ IH]; [reflexivity|].
  inversion Hes as [|e' es' He Hes']; subst.
  cbn [map concat]. rewrite (split_trailing _ Hw), (repr_entries He), (IH Hes').
  reflexivity.
Qed.

Lemma read_phone_book_of_printed_lines_witness :
  read_phone_book
    (fun _ => Text [lit "Ann Lee - 123456789" ++ [10%N]; lit "Bob  : 12345"] None)
    (lit "book.txt") [] =
  (Returns [ PhoneBookEntry.Build (lit "Ann") (lit "Lee") (lit "-") (lit "123456789");
             PhoneBookEntry.Build (lit "Bob") (lit "") (lit ":") (lit "12345") ],
   []).
Proof.
  apply (@read_phone_book_of_printed_lines
           (fun _ => Text [lit "Ann Lee - 123456789" ++ [10%N]; lit "Bob  : 12345"]
                          None)
           (lit "book.txt")
           [lit "Ann Lee - 123456789" ++ [10%N]; lit "Bob  : 12345"]
           [ PhoneBookEntry.Build (lit "Ann") (lit "Lee") (lit "-") (lit "123456789");
             PhoneBookEntry.Build (lit "Bob") (lit "") (lit ":") (lit "12345") ]
           []).
  - reflexivity.
  - constructor; [exists [10%N]; split; [repeat constructor | reflexivity]|].
    constructor; [exists []; split; [constructor | reflexivity]|].
    constructor.
  - repeat constructor; discriminate.
Defined.
